(** * smartplug: a shallow embedding of [plug.py]

    The development follows the source file top to bottom:

    - [Py]: the fragment of Python's dynamic values that a decoded JSON
      payload is made of, with truthiness, subscripting, iteration, true
      division and [int()];
    - [TuyaSmartPlug.from_raw] and [evaluate_plug_state];
    - the two tables of [history.db] and the statements the program runs
      against them, inside a connection used as a context manager (commit
      when the block ends normally, rollback when it raises);
    - the [record] and [history] commands with their [try]/[except] handlers;
    - the rendering of one history line.

    Conventions.  A Python float is represented by the rational number it
    equals ([Q]): these are the finite doubles, without the infinities and
    NaN, and with one zero.  The true division of [from_raw] rounds to the
    nearest double and overflows as Python's does.  An ISO-8601 UTC string
    with second precision, as written by [record] into the [start], [end]
    and [recorded_at] columns, is represented by the instant it denotes, a
    number of seconds since 1970-01-01T00:00:00Z ([Z]).  The texts "On" and
    "Off" are the two constructors of [state]. *)

From Stdlib Require Import ZArith QArith Qround Qabs Qpower Qminmax.
From Stdlib Require Import String Ascii Lia Lqa.
From stdpp Require Import base strings list gmap sorting.

#[local] Set Warnings "-register-all".
#[local] Open Scope Z_scope.

(** ** Exceptions and fallible computations *)

Inductive exn : Type :=
  | ValueError (msg : string)
  | KeyError (key : string)
  | TypeError
  | OverflowError
  | ZeroDivisionError
  | DatabaseError (msg : string)   (* the sqlite3.Error family *)
  | ExternalError (msg : string).  (* raised by the cloud client *)

Inductive result (A : Type) : Type :=
  | Ok (a : A)
  | Raise (e : exn).
Arguments Ok {A} a.
Arguments Raise {A} e.

#[global] Instance result_ret : MRet result := fun _ a => Ok a.
#[global] Instance result_bind : MBind result := fun _ _ f m =>
  match m with
  | Ok a => f a
  | Raise e => Raise e
  end.

(** ** Python values *)

Module Py.

(** What [json.loads] can produce.  A JSON object has string keys. *)
Inductive val : Type :=
  | VNone
  | VBool (b : bool)
  | VInt (z : Z)
  | VFloat (q : Q)
  | VStr (s : string)
  | VList (l : list val)
  | VDict (d : gmap string val).

(** [bool(v)], the test of [if v] and [not v]. *)
Definition truthy (v : val) : bool :=
  match v with
  | VNone => false
  | VBool b => b
  | VInt z => negb (z =? 0)
  | VFloat q => negb (Qeq_bool q 0)
  | VStr s => negb (String.eqb s "")
  | VList l => match l with [] => false | _ :: _ => true end
  | VDict d => negb (size d =? 0)%nat
  end.

(** [d.get(k, dflt)] on a dict with string keys. *)
Definition get (d : gmap string val) (k : string) (dflt : val) : val :=
  default dflt (d !! k).

(** [v[k]] for a string [k]: only a dict can be subscripted by a string. *)
Definition getitem (v : val) (k : string) : result val :=
  match v with
  | VDict d =>
      match d !! k with
      | Some x => Ok x
      | None => Raise (KeyError k)
      end
  | _ => Raise TypeError
  end.

(** [iter(v)] run to exhaustion.  A dict yields its keys and a string its
    characters (as one-character strings). *)
Definition iter (v : val) : result (list val) :=
  match v with
  | VList l => Ok l
  | VDict d => Ok ((fun kv => VStr kv.1) <$> map_to_list d)
  | VStr s => Ok ((fun c => VStr (String c "")) <$> list_ascii_of_string s)
  | _ => Raise TypeError
  end.

(** Lists and dicts cannot be dict keys. *)
Definition hashable (v : val) : bool :=
  match v with
  | VList _ | VDict _ => false
  | _ => true
  end.

(** *** Floats *)

(** The integer part of the binary logarithm of [x], for [0 < x]. *)
Definition floor_log2 (x : Q) : Z :=
  let l := Z.log2 (Qnum x) - Z.log2 (Z.pos (Qden x)) in
  if Qle_bool (2 ^ l) x then l else l - 1.

(** The integer nearest to [x]; of two that are equally near, the even one. *)
Definition round_half_even (x : Q) : Z :=
  let f := Qfloor x in
  match (x - inject_Z f ?= 1 # 2)%Q with
  | Lt => f
  | Gt => f + 1
  | Eq => if Z.even f then f else f + 1
  end.

(** The double (IEEE 754 binary64) nearest to [x], ties to even: a mantissa
    of 53 bits at the exponent of [x], or at the least exponent, -1074, when
    [x] is smaller than the normal numbers.  There is none when the rounded
    value reaches [2 ^ 1024]. *)
Definition binary64 (x : Q) : option Q :=
  if Qeq_bool x 0 then Some 0%Q
  else
    let e := Z.max (floor_log2 (Qabs x) - 52) (-1074) in
    let r := (inject_Z (round_half_even (x / 2 ^ e)) * 2 ^ e)%Q in
    if Qle_bool (2 ^ 1024) (Qabs r) then None else Some (Qred r).


(** [float(z)] of an int. *)
Definition float_of_int (z : Z) : result Q :=
  match binary64 (inject_Z z) with
  | Some r => Ok r
  | None => Raise OverflowError
  end.

(** [v / d] for an int [d]: true division, defined on numbers ([bool] is a
    subclass of [int]).  Of two ints it is the double nearest to the exact
    quotient, and OverflowError when there is none.  A float is divided by
    [float(d)]; the quotient of two doubles is rounded, and since a double
    [q] is below [2 ^ 1024] and [float(d)] is an integer, it does not
    overflow: the last [Raise] is not reached when [q] is a double. *)
Definition truediv (v : val) (d : Z) : result Q :=
  let int_truediv (z : Z) : result Q :=
    if d =? 0 then Raise ZeroDivisionError
    else
      match binary64 (inject_Z z / inject_Z d) with
      | Some r => Ok r
      | None => Raise OverflowError
      end in
  match v with
  | VBool b => int_truediv (Z.b2z b)
  | VInt z => int_truediv z
  | VFloat q =>
      d' ← float_of_int d;
      if Qeq_bool d' 0 then Raise ZeroDivisionError
      else
        match binary64 (q / d') with
        | Some r => Ok r
        | None => Raise OverflowError
        end
  | _ => Raise TypeError
  end.

(** Truncation towards zero, [int(x)] of a float. *)
Definition trunc (q : Q) : Z := Z.quot (Qnum q) (Z.pos (Qden q)).

Section Int.
(** [int(s)] of a string is Python's own grammar of integer literals; it
    is a parameter of the development. *)
Variable int_of_str : string -> result Z.

Definition int (v : val) : result Z :=
  match v with
  | VBool b => Ok (Z.b2z b)
  | VInt z => Ok z
  | VFloat q => Ok (trunc q)
  | VStr s => int_of_str s
  | VNone | VList _ | VDict _ => Raise TypeError
  end.
End Int.

End Py.

(** ** The telemetry snapshot *)

(** The dataclass.  Its annotations are not enforced: [from_raw] stores
    whatever value the payload carries for the five fields it copies, and a
    float for the three it divides. *)
Record TuyaSmartPlug : Type := {
  power : Py.val;
  countdown_1_s : Py.val;
  energy_wh : Py.val;
  current_a : Q;
  voltage_v : Q;
  power_w : Q;
  fault_code : Py.val;
  relay_status : Py.val;
}.

(** [{item["code"]: item["value"] for item in items}], left to right.  The
    key expression is evaluated before the value expression, and hashing the
    key comes last.  [dps] is only ever read at string keys, and a string
    never equals a key of another type, so an entry under a non-string key is
    not kept. *)
Fixpoint build_dps (items : list Py.val) (dps : gmap string Py.val)
  : result (gmap string Py.val) :=
  match items with
  | [] => Ok dps
  | item :: rest =>
      code ← Py.getitem item "code";
      value ← Py.getitem item "value";
      if Py.hashable code then
        build_dps rest
          match code with
          | Py.VStr k => <[k := value]> dps
          | _ => dps
          end
      else Raise TypeError
  end.

Definition from_raw (raw : gmap string Py.val) : result TuyaSmartPlug :=
  if negb (Py.truthy (Py.get raw "success" Py.VNone)) then
    Raise (ValueError "Tuya API call failed or returned no data.")
  else
    items ← Py.iter (Py.get raw "result" (Py.VList []));
    dps ← build_dps items ∅;
    cur ← Py.truediv (Py.get dps "cur_current" (Py.VInt 0)) 1000;
    vol ← Py.truediv (Py.get dps "cur_voltage" (Py.VInt 0)) 10;
    pow ← Py.truediv (Py.get dps "cur_power" (Py.VInt 0)) 10;
    Ok {| power := Py.get dps "switch_1" (Py.VBool false);
          countdown_1_s := Py.get dps "countdown_1" (Py.VInt 0);
          energy_wh := Py.get dps "add_ele" (Py.VInt 0);
          current_a := cur;
          voltage_v := vol;
          power_w := pow;
          fault_code := Py.get dps "fault" (Py.VInt 0);
          relay_status := Py.get dps "relay_status" (Py.VStr "unknown") |}.

(** ** The state classifier *)

Inductive state : Type := On | Off.

#[global] Instance state_eq_dec : EqDecision state.
Proof. solve_decision. Defined.

(** [a > b] on floats. *)
Definition Qgtb (a b : Q) : bool := negb (Qle_bool a b).

Definition evaluate_plug_state (plug : TuyaSmartPlug) (threshold : Q)
  : state * state :=
  let plug_state := if Py.truthy (power plug) then On else Off in
  let device_state :=
    if negb (Py.truthy (power plug)) then Off
    else if Qgtb (power_w plug) threshold then On
    else Off in
  (plug_state, device_state).

(** ** The history database *)

(** A row of [status_log]: one interval of constant state. *)
Record status_row : Type := {
  start : Z;
  end_ : Z;
  plug_state : state;
  device_state : state;
}.

(** A row of [event_log]: one sample, as bound to the eleven placeholders. *)
Record event_row : Type := {
  recorded_at : Z;
  ev_plug_state : state;
  ev_device_state : state;
  plug_power : Z;
  countdown_s : Py.val;
  ev_energy_wh : Py.val;
  ev_current_a : Q;
  ev_voltage_v : Q;
  ev_power_w : Q;
  ev_relay_status : Py.val;
  ev_fault_code : Py.val;
}.

(** Both tables in insertion order.  The program never deletes a row and
    never chooses a rowid, so SQLite numbers the rows 1, 2, 3, ...: the row
    with rowid [r] is the one at index [r - 1]. *)
Record database : Type := {
  status_log : list status_row;
  event_log : list event_row;
}.

Inductive stmt : Type :=
  | CreateStatusLog
  | CreateEventLog
  | InsertEventLog (r : event_row)
  | SelectLastStatus
  | UpdateStatusEnd (now : Z) (rowid : nat)
  | InsertStatusLog (r : status_row)
  | SelectStatusLog.

(** What the process asks of SQLite. *)
Inductive op : Type :=
  | Connect
  | Execute (s : stmt)
  | Commit
  | Rollback.

Inductive log_entry : Type :=
  | LogInfo (msg : string) (plug_state device_state : state)
  | LogError (msg : string) (e : exn).

(** Everything a command can change: the database file, the log sink, the
    terminal, and the list of operations attempted on SQLite so far. *)
Record machine : Type := {
  db : database;
  log : list log_entry;
  stdout : list string;
  trace : list op;
}.

(** Everything a command takes from its surroundings: the clock, the zone
    offset captured in [LOCAL_TZ] (seconds east of UTC), the reply of the
    cloud, the builtin [int] on strings, which of the operations on SQLite
    fail, counted over the life of the machine, and the order in which
    SQLite returns rows that tie in an ORDER BY, as a ranking of rowids. *)
Record env : Type := {
  utc_now : Z;
  local_utcoffset : Z;
  cloud_getstatus : result (gmap string Py.val);
  int_of_str : string -> result Z;
  sqlite_fault : nat -> option exn;
  sqlite_tie_rank : nat -> nat;
}.

(** ** Commands: state and exceptions *)

Definition Cmd (A : Type) : Type := machine -> result A * machine.

#[global] Instance Cmd_ret : MRet Cmd := fun _ a m => (Ok a, m).
#[global] Instance Cmd_bind : MBind Cmd := fun _ _ f c m =>
  match c m with
  | (Ok a, m') => f a m'
  | (Raise e, m') => (Raise e, m')
  end.

Definition lift {A} (r : result A) : Cmd A := fun m => (r, m).

(** [try: body except Exception as e: handler(e)]. *)
Definition try_except (body : Cmd unit) (handler : exn -> Cmd unit) : Cmd unit :=
  fun m =>
    match body m with
    | (Ok a, m') => (Ok a, m')
    | (Raise e, m') => handler e m'
    end.

Definition logger_info (msg : string) (ps ds : state) : Cmd unit :=
  fun m => (Ok (), {| db := db m; log := log m ++ [LogInfo msg ps ds];
                      stdout := stdout m; trace := trace m |}).

Definition logger_error (msg : string) (e : exn) : Cmd unit :=
  fun m => (Ok (), {| db := db m; log := log m ++ [LogError msg e];
                      stdout := stdout m; trace := trace m |}).

Definition print (line : string) : Cmd unit :=
  fun m => (Ok (), {| db := db m; log := log m;
                      stdout := stdout m ++ [line]; trace := trace m |}).

Definition set_db (d : database) : Cmd unit :=
  fun m => (Ok (), {| db := d; log := log m;
                      stdout := stdout m; trace := trace m |}).

Definition get_db : Cmd database := fun m => (Ok (db m), m).

(** One operation on SQLite: it is appended to the trace, and it fails when
    the surroundings say that the operation with this number does. *)
Definition attempt (E : env) (o : op) : Cmd unit :=
  fun m =>
    let m' := {| db := db m; log := log m;
                 stdout := stdout m; trace := trace m ++ [o] |} in
    match sqlite_fault E (length (trace m)) with
    | Some e => (Raise e, m')
    | None => (Ok (), m')
    end.

(** [with sqlite3.connect(DB_PATH) as conn: body].  When the block ends
    normally (also through [return]) the transaction is committed; when the
    block raises, or the commit fails, it is rolled back and the exception
    goes on. *)
Definition with_connection {A} (E : env) (body : Cmd A) : Cmd A :=
  fun m =>
    match attempt E Connect m with
    | (Raise e, m1) => (Raise e, m1)
    | (Ok _, m1) =>
        let rollback (e : exn) (m2 : machine) : result A * machine :=
          (Raise e, {| db := db m; log := log m2; stdout := stdout m2;
                       trace := trace m2 ++ [Rollback] |}) in
        match body m1 with
        | (Raise e, m2) => rollback e m2
        | (Ok a, m2) =>
            match attempt E Commit m2 with
            | (Raise e, m3) => rollback e m3
            | (Ok _, m3) => (Ok a, m3)
            end
        end
    end.

(** *** Binding Python values to placeholders *)

Definition int64 (z : Z) : bool := (- 2 ^ 63 <=? z) && (z <? 2 ^ 63).

(** Converting one parameter: SQLite takes None, int (64 bits), float and
    str. *)
Definition adapt (v : Py.val) : result unit :=
  match v with
  | Py.VList _ | Py.VDict _ =>
      Raise (DatabaseError "Error binding parameter: type is not supported")
  | Py.VInt z => if int64 z then Ok () else Raise OverflowError
  | _ => Ok ()
  end.

(** Every column is declared NOT NULL. *)
Definition not_null (v : Py.val) : result unit :=
  match v with
  | Py.VNone => Raise (DatabaseError "NOT NULL constraint failed")
  | _ => Ok ()
  end.

Definition bind_event (r : event_row) : result unit :=
  _ ← adapt (Py.VInt (plug_power r));
  _ ← adapt (countdown_s r);
  _ ← adapt (ev_energy_wh r);
  _ ← adapt (ev_relay_status r);
  _ ← adapt (ev_fault_code r);
  _ ← not_null (countdown_s r);
  _ ← not_null (ev_energy_wh r);
  _ ← not_null (ev_relay_status r);
  not_null (ev_fault_code r).

(** *** The statements *)

Definition set_end (now : Z) (r : status_row) : status_row :=
  {| start := start r; end_ := now;
     plug_state := plug_state r; device_state := device_state r |}.

(** [UPDATE status_log SET end = ? WHERE rowid = ?]. *)
Definition update_end (now : Z) (rowid : nat) (rows : list status_row)
  : list status_row :=
  match rowid with
  | O => rows
  | S i => alter (set_end now) i rows
  end.

(** [SELECT rowid, plug_state, device_state FROM status_log
     ORDER BY rowid DESC LIMIT 1], then [fetchone()]. *)
Definition last_status (rows : list status_row) : option (nat * state * state) :=
  match last rows with
  | Some r => Some (length rows, plug_state r, device_state r)
  | None => None
  end.

(** [SELECT start, end, plug_state, device_state FROM status_log
     ORDER BY start DESC], then [fetchall()].  SQL leaves the order of rows
     with equal [start] to the engine: they come by the rank the
     surroundings give to their rowids, and rows of equal rank in the order
     of their rowids.  The order [select_order] on rows with their rowids is
     total, so that the result does not depend on the sorting algorithm. *)
Definition start_desc (a b : status_row) : Prop := start b <= start a.

#[global] Instance start_desc_dec a b : Decision (start_desc a b).
Proof. unfold start_desc. apply _. Defined.

Definition select_order (E : env) (a b : nat * status_row) : Prop :=
  start b.2 < start a.2
  \/ start a.2 = start b.2
     /\ (sqlite_tie_rank E a.1 < sqlite_tie_rank E b.1
         \/ sqlite_tie_rank E a.1 = sqlite_tie_rank E b.1 /\ a.1 <= b.1)%nat.

#[global] Instance select_order_dec E a b : Decision (select_order E a b).
Proof. unfold select_order. apply _. Defined.

Definition order_by_start_desc (E : env) (rows : list status_row)
  : list status_row :=
  (merge_sort (select_order E) (zip (seq 1 (length rows)) rows)).*2.

(** The effect of a statement on the tables. *)
Definition apply_stmt (s : stmt) (d : database) : database :=
  match s with
  | InsertEventLog r =>
      {| status_log := status_log d; event_log := event_log d ++ [r] |}
  | UpdateStatusEnd now rowid =>
      {| status_log := update_end now rowid (status_log d);
         event_log := event_log d |}
  | InsertStatusLog r =>
      {| status_log := status_log d ++ [r]; event_log := event_log d |}
  | CreateStatusLog | CreateEventLog | SelectLastStatus | SelectStatusLog => d
  end.

(** [cursor.execute(s, params)]. *)
Definition execute (E : env) (s : stmt) : Cmd unit :=
  _ ← lift match s with InsertEventLog r => bind_event r | _ => Ok () end;
  _ ← attempt E (Execute s);
  d ← get_db;
  set_db (apply_stmt s d).

(** ** The commands *)

Definition ensure_db (E : env) : Cmd unit :=
  with_connection E
    (_ ← execute E CreateStatusLog;
     execute E CreateEventLog).

Definition fetch_plug (E : env) : Cmd TuyaSmartPlug :=
  raw ← lift (cloud_getstatus E);
  lift (from_raw raw).

Definition event_of (E : env) (now : Z) (plug : TuyaSmartPlug)
    (ps ds : state) : result event_row :=
  pp ← Py.int (int_of_str E) (power plug);
  Ok {| recorded_at := now;
        ev_plug_state := ps;
        ev_device_state := ds;
        plug_power := pp;
        countdown_s := countdown_1_s plug;
        ev_energy_wh := energy_wh plug;
        ev_current_a := current_a plug;
        ev_voltage_v := voltage_v plug;
        ev_power_w := power_w plug;
        ev_relay_status := relay_status plug;
        ev_fault_code := fault_code plug |}.

Definition insert_new_state (E : env) (now : Z) (ps ds : state) : Cmd unit :=
  _ ← execute E (InsertStatusLog {| start := now; end_ := now;
                                    plug_state := ps; device_state := ds |});
  logger_info "Logged new state; Plug: {}, Device: {}" ps ds.

(** The block under [with sqlite3.connect(DB_PATH) as conn] (lines 188 to
    235): the event, then the interval. *)
Definition write_sample (E : env) (now : Z) (plug : TuyaSmartPlug)
    (ps ds : state) : Cmd unit :=
  ev ← lift (event_of E now plug ps ds);
  _ ← execute E (InsertEventLog ev);
  _ ← execute E SelectLastStatus;
  d ← get_db;
  match last_status (status_log d) with
  | Some (rowid, last_plug_state, last_device_state) =>
      if decide ((ps, ds) = (last_plug_state, last_device_state)) then
        _ ← execute E (UpdateStatusEnd now rowid);
        logger_info "Updated existing state; Plug: {}, Device: {}" ps ds
      else insert_new_state E now ps ds
  | None => insert_new_state E now ps ds
  end.

(** The body of [try] in [record] from the classification on (lines 185 to
    235): what is done with one snapshot taken at [now]. *)
Definition record_sample (E : env) (now : Z) (plug : TuyaSmartPlug)
    (threshold : Q) : Cmd unit :=
  let '(ps, ds) := evaluate_plug_state plug threshold in
  with_connection E (write_sample E now plug ps ds).

(** The body of [try] in [record]. *)
Definition record_try (E : env) (threshold : Q) : Cmd unit :=
  plug ← fetch_plug E;
  record_sample E (utc_now E) plug threshold.

Definition record (E : env) (threshold : Q) : Cmd unit :=
  _ ← ensure_db E;
  try_except (record_try E threshold)
             (logger_error "Failed to record state: {}").

(** ** Dates and times *)

(** An aware datetime in some fixed-offset zone, to the second. *)
Record datetime : Type := {
  year : Z;
  month : Z;
  day : Z;
  hour : Z;
  minute : Z;
  second : Z;
}.

(** The proleptic Gregorian date of a day number (days since 1970-01-01),
    computed era by era: an era is 400 years, 146097 days, and starts on a
    1st of March. *)
Definition civil_from_days (days : Z) : Z * Z * Z :=
  let z := days + 719468 in
  let era := z / 146097 in
  let doe := z mod 146097 in
  let yoe := (doe - doe / 1460 + doe / 36524 - doe / 146096) / 365 in
  let doy := doe - (365 * yoe + yoe / 4 - yoe / 100) in
  let mp := (5 * doy + 2) / 153 in
  let d := doy - (153 * mp + 2) / 5 + 1 in
  let m := if mp <? 10 then mp + 3 else mp - 9 in
  let y := yoe + era * 400 + (if m <=? 2 then 1 else 0) in
  (y, m, d).

(** [datetime.fromisoformat(raw)] brought to UTC.  A stored text is
    represented by its instant, so there is nothing left to parse. *)
Definition parse_timestamp (raw : Z) : Z := raw.

(** [dt.astimezone(tz)] for an instant [dt] and a zone [utcoffset] seconds
    east of UTC: the fields of the local time.  A datetime holds the years
    1 to 9999 only, and the method raises OverflowError when the local time
    is outside of them: that is [check_date_value] below, which the loop of
    [history] runs before it uses the fields. *)
Definition astimezone (utcoffset : Z) (dt : Z) : datetime :=
  let wall := dt + utcoffset in
  let '(y, m, d) := civil_from_days (wall / 86400) in
  let secs := wall mod 86400 in
  {| year := y; month := m; day := d;
     hour := secs / 3600; minute := secs mod 3600 / 60; second := secs mod 60 |}.

Definition date (dt : datetime) : Z * Z * Z := (year dt, month dt, day dt).

(** *** Formatting *)

Definition digit (k : Z) : ascii := ascii_of_N (48 + Z.to_N k).

Fixpoint decimal_aux (fuel : nat) (n : Z) (acc : string) : string :=
  match fuel with
  | O => acc
  | S fuel' =>
      let acc' := String (digit (n mod 10)) acc in
      if n <? 10 then acc' else decimal_aux fuel' (n / 10) acc'
  end.

(** [str(n)] for [0 <= n]. *)
Definition decimal (n : Z) : string :=
  decimal_aux (S (Z.to_nat (Z.log2 n))) n "".

Fixpoint repeat_char (c : ascii) (n : nat) : string :=
  match n with
  | O => ""
  | S n' => String c (repeat_char c n')
  end.

Definition zfill (width : nat) (s : string) : string :=
  repeat_char "0" (width - String.length s) +:+ s.

(** [f"{z:02}"]: at least two characters, zeros after the sign. *)
Definition format_02 (z : Z) : string :=
  if z <? 0 then "-" +:+ zfill 1 (decimal (- z)) else zfill 2 (decimal z).

(** [f"{s:<width}"]. *)
Definition ljust (width : nat) (s : string) : string :=
  s +:+ repeat_char " " (width - String.length s).

(** The local time of the instant [dt] is between 0001-01-01 00:00:00 and
    9999-12-31 23:59:59. *)
Definition date_value_in_range (utcoffset dt : Z) : bool :=
  (-62135596800 <=? dt + utcoffset) && (dt + utcoffset <? 253402300800).

(** What [dt.astimezone(tz)] raises. *)
Definition check_date_value (utcoffset dt : Z) : result unit :=
  if date_value_in_range utcoffset dt then Ok ()
  else Raise OverflowError.

(** [dt.strftime('%Y-%m-%d %H:%M')].  [%m], [%d], [%H] and [%M] are two
    digits; [%Y] is the year as the C library prints it, four digits from the
    year 1000 on. *)
Definition strftime_date_time (dt : datetime) : string :=
  decimal (year dt) +:+ "-" +:+ zfill 2 (decimal (month dt)) +:+ "-"
  +:+ zfill 2 (decimal (day dt)) +:+ " "
  +:+ zfill 2 (decimal (hour dt)) +:+ ":" +:+ zfill 2 (decimal (minute dt)).

(** [dt.strftime('%H:%M')]. *)
Definition strftime_time (dt : datetime) : string :=
  zfill 2 (decimal (hour dt)) +:+ ":" +:+ zfill 2 (decimal (minute dt)).

(** ** One line of the history *)

Definition same_day (tz : Z) (r : status_row) : bool :=
  let start_local := astimezone tz (parse_timestamp (start r)) in
  let end_local := astimezone tz (parse_timestamp (end_ r)) in
  bool_decide (date start_local = date end_local).

Definition time_range (tz : Z) (r : status_row) : string :=
  let start_local := astimezone tz (parse_timestamp (start r)) in
  let end_local := astimezone tz (parse_timestamp (end_ r)) in
  if same_day tz r then
    strftime_date_time start_local +:+ " - " +:+ strftime_time end_local
  else
    strftime_date_time start_local +:+ " - " +:+ strftime_date_time end_local.

Definition duration_str (r : status_row) : string :=
  let duration_seconds := parse_timestamp (end_ r) - parse_timestamp (start r) in
  let hours := duration_seconds / 3600 in
  let remainder := duration_seconds mod 3600 in
  let minutes := remainder / 60 in
  format_02 hours +:+ ":" +:+ format_02 minutes.

Definition state_str (s : state) : string :=
  match s with On => "On" | Off => "Off" end.

Definition history_line (tz : Z) (r : status_row) : string :=
  ljust 40 (time_range tz r) +:+ " " +:+ ljust 8 (duration_str r) +:+ " "
  +:+ ljust 6 (state_str (plug_state r)) +:+ " "
  +:+ ljust 8 (state_str (device_state r)).

Definition history_header : string :=
  ljust 40 "Time Range" +:+ " " +:+ ljust 8 "Duration" +:+ " "
  +:+ ljust 6 "Plug" +:+ " " +:+ ljust 8 "Device".

Fixpoint for_each {A} (l : list A) (body : A -> Cmd unit) : Cmd unit :=
  match l with
  | [] => mret ()
  | x :: l' => _ ← body x; for_each l' body
  end.

(** One turn of the loop of [history] (lines 261 to 281): the two
    conversions to local time, which can raise, then the line. *)
Definition history_row (tz : Z) (r : status_row) : Cmd unit :=
  _ ← lift (check_date_value tz (parse_timestamp (start r)));
  _ ← lift (check_date_value tz (parse_timestamp (end_ r)));
  print (history_line tz r).

(** The body of [try] in [history]. *)
Definition history_try (E : env) : Cmd unit :=
  with_connection E
    (_ ← execute E SelectStatusLog;
     d ← get_db;
     let rows := order_by_start_desc E (status_log d) in
     match rows with
     | [] => print "No history found."
     | _ :: _ =>
         _ ← print history_header;
         _ ← print (repeat_char "-" 70);
         for_each rows (history_row (local_utcoffset E))
     end).

Definition history (E : env) : Cmd unit :=
  _ ← ensure_db E;
  try_except (history_try E) (logger_error "Failed to load history: {}").

(** Both ends of the interval have a local time that a datetime holds. *)
Definition row_in_range (tz : Z) (r : status_row) : Prop :=
  date_value_in_range tz (start r) = true
  /\ date_value_in_range tz (end_ r) = true.

(** The lines [history] prints for the rows it fetched. *)
Definition history_report (tz : Z) (rows : list status_row) : list string :=
  match rows with
  | [] => ["No history found."]
  | _ :: _ =>
      history_header :: repeat_char "-" 70 :: (history_line tz <$> rows)
  end.

(** The instant [dt] falls, on the wall clock of the zone, between
    1000-01-01 00:00:00 and 9999-12-31 23:59:59: the years of four digits. *)
Definition four_digit_year (utcoffset : Z) (dt : Z) : Prop :=
  -30610224000 <= dt + utcoffset < 253402300800.

(** ** The words of the specification, for comparison *)

Module Spec.

(** "YYYY-MM-DD HH:MM - HH:MM" and the like, read as a template: a letter
    stands for one decimal digit, any other character for itself. *)
Definition is_digit (c : ascii) : bool :=
  (48 <=? N_of_ascii c)%N && (N_of_ascii c <=? 57)%N.

Definition is_letter (c : ascii) : bool :=
  (65 <=? N_of_ascii c)%N && (N_of_ascii c <=? 90)%N.

Fixpoint shaped (template s : string) : bool :=
  match template, s with
  | EmptyString, EmptyString => true
  | String t template', String c s' =>
      (if is_letter t then is_digit c else Ascii.eqb t c)
      && shaped template' s'
  | _, _ => false
  end.

(** "duration = end − start, rendered as zero-padded HH:MM (hours not
    capped at 24; minutes via integer division, seconds discarded)": the
    whole minutes of the duration, split into hours and minutes. *)
Definition whole_minutes (r : status_row) : Z := (end_ r - start r) / 60.

Definition duration (r : status_row) : string :=
  format_02 (whole_minutes r / 60) +:+ ":" +:+ format_02 (whole_minutes r mod 60).

(** "the number of State Pair transitions" of a sequence of pairs. *)
Fixpoint transitions (pairs : list (state * state)) : nat :=
  match pairs with
  | p :: (q :: _) as rest =>
      (if decide (p = q) then 0 else 1) + transitions rest
  | _ => 0
  end%nat.

End Spec.

(** ** Sequences of samples *)

Record sample : Type := {
  ts : Z;
  snapshot : TuyaSmartPlug;
  threshold : Q;
}.

Definition pair_of (s : sample) : state * state :=
  evaluate_plug_state (snapshot s) (threshold s).

(** One call per sample, in order, as a scheduler makes them. *)
Definition record_all (E : env) (samples : list sample) : Cmd unit :=
  for_each samples (fun s => record_sample E (ts s) (snapshot s) (threshold s)).

Fixpoint increasing (l : list Z) : Prop :=
  match l with
  | a :: (b :: _) as rest => a < b /\ increasing rest
  | _ => True
  end.

(** What lines 220 to 234 make of [status_log], as a function of the table. *)
Definition merge_or_append (now : Z) (pair : state * state)
    (rows : list status_row) : list status_row :=
  let new := {| start := now; end_ := now;
                plug_state := pair.1; device_state := pair.2 |} in
  match last_status rows with
  | Some (rowid, last_plug_state, last_device_state) =>
      if decide (pair = (last_plug_state, last_device_state))
      then update_end now rowid rows
      else rows ++ [new]
  | None => rows ++ [new]
  end.

(** The table after one more sample, and after a sequence of them. *)
Definition step (rows : list status_row) (s : sample) : list status_row :=
  merge_or_append (ts s) (pair_of s) rows.

Definition pair_of_row (r : status_row) : state * state :=
  (plug_state r, device_state r).

(** An interval is proper when it does not end before it starts; [a] is
    before [b] when [a] has ended by the time [b] starts; a table is tidy up
    to the instant [t] when its intervals are proper, each before all the
    later ones, and all ended by [t]. *)
Definition proper (r : status_row) : Prop := start r <= end_ r.

Definition before (a b : status_row) : Prop := end_ a < start b.

Definition starts_before (a b : status_row) : Prop := start a < start b.

Definition tidy (t : Z) (rows : list status_row) : Prop :=
  Forall proper rows /\ StronglySorted before rows
  /\ Forall (fun r => end_ r <= t) rows.

(** The one statement lines 220 to 234 run on [status_log]. *)
Definition interval_write (now : Z) (pair : state * state)
    (rows : list status_row) : stmt :=
  let new := {| start := now; end_ := now;
                plug_state := pair.1; device_state := pair.2 |} in
  match last_status rows with
  | Some (rowid, last_plug_state, last_device_state) =>
      if decide (pair = (last_plug_state, last_device_state))
      then UpdateStatusEnd now rowid
      else InsertStatusLog new
  | None => InsertStatusLog new
  end.

(** Counting the writes in a list of operations. *)
Definition is_event_insert (o : op) : bool :=
  match o with Execute (InsertEventLog _) => true | _ => false end.

Definition is_status_insert (o : op) : bool :=
  match o with Execute (InsertStatusLog _) => true | _ => false end.

Definition is_status_update (o : op) : bool :=
  match o with Execute (UpdateStatusEnd _ _) => true | _ => false end.

Definition count (p : op -> bool) (ops : list op) : nat :=
  length (filter (fun o => p o = true) ops).

(** The operations a command added to the trace of [m]. *)
Definition ops_since (m m' : machine) : list op :=
  drop (length (trace m)) (trace m').

(** No operation on SQLite numbered from [a] up to [b] (excluded) fails. *)
Definition calm (E : env) (a b : nat) : Prop :=
  forall n, (a <= n < b)%nat -> sqlite_fault E n = None.

(** [m'] is [m] after the operations [ops], none of which failed, and with
    nothing printed. *)
Record after (E : env) (m : machine) (ops : list op) (m' : machine) : Prop := {
  after_trace : trace m' = trace m ++ ops;
  after_calm : calm E (length (trace m)) (length (trace m'));
  after_stdout : stdout m' = stdout m;
}.

(** ** Reading a payload *)

Definition code_is (k : string) (item : Py.val) : bool :=
  match item with
  | Py.VDict d =>
      match d !! "code" with
      | Some (Py.VStr k') => String.eqb k k'
      | _ => false
      end
  | _ => false
  end.

(** The value the payload reports for a code: that of the last item carrying
    the code. *)
Fixpoint reported (items : list Py.val) (k : string) : option Py.val :=
  match items with
  | [] => None
  | item :: rest =>
      match reported rest k with
      | Some v => Some v
      | None =>
          if code_is k item then
            match item with
            | Py.VDict d => d !! "value"
            | _ => None
            end
          else None
      end
  end.

(** An item as the cloud documents it: a code, which is a string, and a
    value. *)
Definition item_ok (item : Py.val) : bool :=
  match item with
  | Py.VDict d =>
      match d !! "code", d !! "value" with
      | Some (Py.VStr _), Some _ => true
      | _, _ => false
      end
  | _ => false
  end.

Definition is_number (v : Py.val) : bool :=
  match v with
  | Py.VBool _ | Py.VInt _ | Py.VFloat _ => true
  | _ => false
  end.


(** The items of a payload whose ["result"] is a list or is missing. *)
Definition items_of (raw : gmap string Py.val) : option (list Py.val) :=
  match raw !! "result" with
  | None => Some []
  | Some (Py.VList items) => Some items
  | Some _ => None
  end.

Definition reading_ok (items : list Py.val) (k : string) : bool :=
  match reported items k with
  | Some v => is_number v
  | None => true
  end.

Definition well_formed (raw : gmap string Py.val) : bool :=
  match items_of raw with
  | Some items =>
      forallb item_ok items
      && reading_ok items "cur_current" && reading_ok items "cur_voltage"
      && reading_ok items "cur_power"
  | None => false
  end.



(** ** More on payloads *)

(** The eight codes [from_raw] looks up. *)
Definition codes : list string :=
  ["switch_1"; "countdown_1"; "add_ele"; "cur_current"; "cur_voltage";
   "cur_power"; "fault"; "relay_status"].

(** The snapshot made of the values reported by a list of items. *)
Definition snapshot_of (items : list Py.val) : result TuyaSmartPlug :=
  cur ← Py.truediv (default (Py.VInt 0) (reported items "cur_current")) 1000;
  vol ← Py.truediv (default (Py.VInt 0) (reported items "cur_voltage")) 10;
  pow ← Py.truediv (default (Py.VInt 0) (reported items "cur_power")) 10;
  Ok {| power := default (Py.VBool false) (reported items "switch_1");
        countdown_1_s := default (Py.VInt 0) (reported items "countdown_1");
        energy_wh := default (Py.VInt 0) (reported items "add_ele");
        current_a := cur;
        voltage_v := vol;
        power_w := pow;
        fault_code := default (Py.VInt 0) (reported items "fault");
        relay_status :=
          default (Py.VStr "unknown") (reported items "relay_status") |}.

(** A ["result"] over which the loop of [from_raw] does not run at all:
    missing, or an empty list, string or dict. *)
Definition nothing_reported (raw : gmap string Py.val) : Prop :=
  match raw !! "result" with
  | None => True
  | Some (Py.VList l) => l = []
  | Some (Py.VStr s) => s = ""
  | Some (Py.VDict d) => d = ∅
  | Some _ => False
  end.

(** ** Vocabulary for runs of samples *)

(** No two neighbours of the table carry the same pair of states. *)
Definition adjacent_differ (rows : list status_row) : Prop :=
  forall i a b,
    rows !! i = Some a -> rows !! S i = Some b ->
    pair_of_row a <> pair_of_row b.

(** The interval [r] accounts for the sample [s]: it carries the pair of the
    sample and contains its timestamp. *)
Definition covers (r : status_row) (s : sample) : Prop :=
  start r <= ts s <= end_ r /\ pair_of_row r = pair_of s.

Definition covered (rows : list status_row) (s : sample) : Prop :=
  exists r, r ∈ rows /\ covers r s.

(** The pair of states of a row of [event_log]. *)
Definition pair_of_event (ev : event_row) : state * state :=
  (ev_plug_state ev, ev_device_state ev).

(** The message [record] logs after its statement on [status_log]. *)
Definition write_message (w : stmt) : string :=
  match w with
  | UpdateStatusEnd _ _ => "Updated existing state; Plug: {}, Device: {}"
  | _ => "Logged new state; Plug: {}, Device: {}"
  end.

(** ** The commands that only look *)

(** What [fetch_plug] returns or raises, given the reply of the cloud. *)
Definition fetched (E : env) : result TuyaSmartPlug :=
  raw ← cloud_getstatus E;
  from_raw raw.

(** The body of [try] in [status] (lines 157 to 165). *)
Definition status_try (E : env) (threshold : Q) : Cmd unit :=
  plug ← fetch_plug E;
  let '(plug_state, device_state) := evaluate_plug_state plug threshold in
  _ ← print ("Plug:     " +:+ state_str plug_state);
  print ("Device:   " +:+ state_str device_state).

Definition status (E : env) (threshold : Q) : Cmd unit :=
  try_except (status_try E threshold) (logger_error "Error: {}").

Section Info.

(** Two builtins are parameters here: [str(v)], which is what an f-string
    field without a format makes of a value, and [format(x, ".nf")] of a
    float, for [n] digits after the point. *)
Variable str : Py.val -> string.
Variable format_f : nat -> Q -> string.

(** [TuyaSmartPlug.print] (lines 51 to 59). *)
Definition print_plug (plug : TuyaSmartPlug) : Cmd unit :=
  _ ← print ("Power:         "
             +:+ (if Py.truthy (power plug) then "On" else "Off"));
  _ ← print ("Countdown:     " +:+ str (countdown_1_s plug) +:+ " s");
  _ ← print ("Voltage:       " +:+ format_f 1 (voltage_v plug) +:+ " V");
  _ ← print ("Current:       " +:+ format_f 3 (current_a plug) +:+ " A");
  _ ← print ("Power Usage:   " +:+ format_f 1 (power_w plug) +:+ " W");
  _ ← print ("Energy Used:   " +:+ str (energy_wh plug) +:+ " Wh");
  _ ← print ("Relay Status:  " +:+ str (relay_status plug));
  print ("Fault Code:    " +:+ str (fault_code plug)).

(** The lines of [print], in order. *)
Definition plug_lines (plug : TuyaSmartPlug) : list string :=
  ["Power:         " +:+ (if Py.truthy (power plug) then "On" else "Off");
   "Countdown:     " +:+ str (countdown_1_s plug) +:+ " s";
   "Voltage:       " +:+ format_f 1 (voltage_v plug) +:+ " V";
   "Current:       " +:+ format_f 3 (current_a plug) +:+ " A";
   "Power Usage:   " +:+ format_f 1 (power_w plug) +:+ " W";
   "Energy Used:   " +:+ str (energy_wh plug) +:+ " Wh";
   "Relay Status:  " +:+ str (relay_status plug);
   "Fault Code:    " +:+ str (fault_code plug)].

(** [info] (lines 137 to 148). *)
Definition info (E : env) : Cmd unit :=
  try_except (plug ← fetch_plug E; print_plug plug)
             (logger_error "Error: {}").

End Info.

(** ** Concrete surroundings, for examples *)

Definition no_fault : nat -> option exn := fun _ => None.

Definition quiet (now : Z) (reply : result (gmap string Py.val)) : env :=
  {| utc_now := now; local_utcoffset := 0; cloud_getstatus := reply;
     int_of_str := fun _ => Raise (ValueError "invalid literal for int()");
     sqlite_fault := no_fault;
     sqlite_tie_rank := fun _ => O |}.

Definition calm_env : env := quiet 0 (Raise (ExternalError "not asked")).

Definition fresh : machine :=
  {| db := {| status_log := []; event_log := [] |};
     log := []; stdout := []; trace := [] |}.

Definition dp (code : string) (value : Py.val) : Py.val :=
  Py.VDict (<["code" := Py.VStr code]> (<["value" := value]> ∅)).

Definition payload (switch : bool) (deciwatts : Z) : gmap string Py.val :=
  <["success" := Py.VBool true]>
    (<["result" := Py.VList [dp "switch_1" (Py.VBool switch);
                              dp "cur_power" (Py.VInt deciwatts)]]> ∅).

Definition plug_150W : TuyaSmartPlug :=
  {| power := Py.VBool true; countdown_1_s := Py.VInt 0;
     energy_wh := Py.VInt 12; current_a := 5 # 8; voltage_v := 461 # 2;
     power_w := 150; fault_code := Py.VInt 0;
     relay_status := Py.VStr "last" |}.


(** A database that holds one interval, On/On from 10:00 to 10:01 on
    2024-02-29, and a machine on it. *)
Definition running : status_row :=
  {| start := 1709200800; end_ := 1709200860;
     plug_state := On; device_state := On |}.

Definition one_interval : machine :=
  {| db := {| status_log := [running]; event_log := [] |};
     log := []; stdout := []; trace := [] |}.

Definition plug_off : TuyaSmartPlug :=
  {| power := Py.VBool false; countdown_1_s := Py.VInt 0;
     energy_wh := Py.VInt 12; current_a := 0; voltage_v := 459 # 2;
     power_w := 0; fault_code := Py.VInt 0;
     relay_status := Py.VStr "last" |}.

(** Three samples a minute apart: 150 W, 150 W, then switched off, with the
    threshold at 5 W. *)
Definition scenario : list sample :=
  [{| ts := 1709200800; snapshot := plug_150W; threshold := 5 |};
   {| ts := 1709200860; snapshot := plug_150W; threshold := 5 |};
   {| ts := 1709200920; snapshot := plug_off; threshold := 5 |}].

(** Surroundings in which the cloud cannot be reached. *)
Definition unreachable : env :=
  quiet 1709200800 (Raise (ExternalError "Connection timed out")).

(** Surroundings in which the fifth operation on SQLite fails: on a fresh
    machine, after the four of [ensure_db], the one that connects. *)
Definition locked : env :=
  {| utc_now := 1709200800; local_utcoffset := 0;
     cloud_getstatus := Ok (payload true 1500);
     int_of_str := fun _ => Raise (ValueError "invalid literal for int()");
     sqlite_fault := fun n =>
       if (n =? 4)%nat then Some (DatabaseError "database is locked") else None;
     sqlite_tie_rank := fun _ => O |}.

(** The reply of [payload true 1500] told in another way: an older reading
    of the power first, a code [from_raw] does not know, then the same
    values in another order. *)
Definition shuffled : gmap string Py.val :=
  <["success" := Py.VInt 1]>
    (<["result" := Py.VList [dp "cur_power" (Py.VInt 7);
                              dp "temperature" (Py.VFloat (215 # 10));
                              dp "cur_power" (Py.VInt 1500);
                              dp "switch_1" (Py.VBool true)]]> ∅).

(** A reply whose second item has no value. *)
Definition truncated : gmap string Py.val :=
  <["success" := Py.VBool true]>
    (<["result" := Py.VList [dp "switch_1" (Py.VBool true);
                              Py.VDict (<["code" := Py.VStr "cur_power"]> ∅)]]> ∅).

(** Surroundings in which the cloud replies with [payload true 1500] and
    nothing fails. *)
Definition answering : env :=
  quiet 1709200800 (Ok (payload true 1500)).

(** An interval of thirty hours that crosses two midnights. *)
Definition long_run : status_row :=
  {| start := 1709200800; end_ := 1709308800;
     plug_state := On; device_state := Off |}.

(** Surroundings one hour west of UTC, and a table whose older interval
    starts half an hour into the year 1, UTC: an hour earlier the year 1 has
    not begun. *)
Definition west : env :=
  {| utc_now := 1709200800; local_utcoffset := -3600;
     cloud_getstatus := Raise (ExternalError "not asked");
     int_of_str := fun _ => Raise (ValueError "invalid literal for int()");
     sqlite_fault := no_fault;
     sqlite_tie_rank := fun _ => O |}.

Definition first_hour : status_row :=
  {| start := -62135595000; end_ := -62135594400;
     plug_state := Off; device_state := Off |}.

Definition old_table : machine :=
  {| db := {| status_log := [first_hour; running]; event_log := [] |};
     log := []; stdout := []; trace := [] |}.

(** Three intervals that start at the same instant, as three calls within
    one second leave them when the pair changes from call to call. *)
Definition same_second : list status_row :=
  [{| start := 1709200800; end_ := 1709200800;
      plug_state := On; device_state := On |};
   {| start := 1709200800; end_ := 1709200800;
      plug_state := On; device_state := Off |};
   {| start := 1709200800; end_ := 1709200800;
      plug_state := Off; device_state := Off |}].

(** * Properties *)

(** ** The state classifier *)

Section Classifier.

Lemma Qgtb_lt (a b : Q) : Qgtb a b = true <-> (b < a)%Q.
Proof.
  unfold Qgtb. rewrite negb_true_iff, <- not_true_iff_false, Qle_bool_iff.
  split; [apply Qnot_le_lt | apply Qlt_not_le].
Qed.

Lemma Qgtb_eq (a b : Q) : (a == b)%Q -> Qgtb a b = false.
Proof.
  intros Hab. unfold Qgtb. apply negb_false_iff, Qle_bool_iff.
  rewrite Hab. apply Qle_refl.
Qed.

Lemma plug_state_spec (plug : TuyaSmartPlug) (threshold : Q) :
  (evaluate_plug_state plug threshold).1
  = if Py.truthy (power plug) then On else Off.
Proof. reflexivity. Qed.

Lemma device_state_spec (plug : TuyaSmartPlug) (threshold : Q) :
  (evaluate_plug_state plug threshold).2
  = if Py.truthy (power plug) && Qgtb (power_w plug) threshold
    then On else Off.
Proof.
  unfold evaluate_plug_state; simpl. by destruct (Py.truthy (power plug)).
Qed.

Lemma state_On_iff (b : bool) : (if b then On else Off) = On <-> b = true.
Proof. by destruct b. Qed.

Lemma state_Off_iff (b : bool) : (if b then On else Off) = Off <-> b = false.
Proof. by destruct b. Qed.

(** C4.  For every snapshot and threshold, the plug state is On exactly when
    the snapshot's power is true (truthy, for a value that is not a bool),
    and Off otherwise; the device state is On exactly when the power is true
    and [power_w] is strictly greater than the threshold, and Off otherwise.
    In particular a snapshot with the power off has device state Off whatever
    [power_w] is, and one with the power on and [power_w] equal to the
    threshold has device state Off. *)
Theorem evaluate_plug_state_correct (plug : TuyaSmartPlug) (threshold : Q) :
  let plug_state := (evaluate_plug_state plug threshold).1 in
  let device_state := (evaluate_plug_state plug threshold).2 in
  (plug_state = On <-> Py.truthy (power plug) = true)
  /\ (plug_state = Off <-> Py.truthy (power plug) = false)
  /\ (device_state = On <->
        Py.truthy (power plug) = true /\ (threshold < power_w plug)%Q)
  /\ (device_state = Off <->
        ~ (Py.truthy (power plug) = true /\ (threshold < power_w plug)%Q))
  /\ (Py.truthy (power plug) = false -> device_state = Off)
  /\ ((power_w plug == threshold)%Q -> device_state = Off)
  /\ (forall b, power plug = Py.VBool b ->
        (plug_state = On <-> b = true)
        /\ (device_state = On <-> b = true /\ (threshold < power_w plug)%Q)).
Proof.
  intros plug_state device_state. subst plug_state device_state.
  rewrite plug_state_spec, device_state_spec.
  refine (conj _ (conj _ (conj _ (conj _ (conj _ (conj _ _)))))).
  - apply state_On_iff.
  - apply state_Off_iff.
  - by rewrite state_On_iff, andb_true_iff, Qgtb_lt.
  - by rewrite state_Off_iff, <- not_true_iff_false, andb_true_iff, Qgtb_lt.
  - by intros ->.
  - intros Heq. by rewrite (Qgtb_eq _ _ Heq), andb_false_r.
  - intros b ->. cbn [Py.truthy]. split; [apply state_On_iff |].
    by rewrite state_On_iff, andb_true_iff, Qgtb_lt.
Qed.

(** C9.  For every snapshot whose [power_w] is not negative and every
    negative threshold, the device state equals the plug state. *)
Theorem negative_threshold_tracks_plug (plug : TuyaSmartPlug) (threshold : Q) :
  (0 <= power_w plug)%Q ->
  (threshold < 0)%Q ->
  (evaluate_plug_state plug threshold).2 = (evaluate_plug_state plug threshold).1.
Proof.
  intros Hpow Hthr.
  rewrite plug_state_spec, device_state_spec.
  assert (Qgtb (power_w plug) threshold = true) as ->.
  { apply Qgtb_lt. eapply Qlt_le_trans; eauto. }
  by rewrite andb_true_r.
Qed.

(** The pair (Off, On) is never produced: a device is On only on a plug
    that is On. *)
Theorem device_on_only_when_plug_on (plug : TuyaSmartPlug) (threshold : Q) :
  evaluate_plug_state plug threshold <> (Off, On).
Proof.
  unfold evaluate_plug_state. by destruct (Py.truthy (power plug)).
Qed.

(** Raising the threshold never changes the plug state and never turns a
    device On: a device that is On at a threshold is On at every lower one. *)
Theorem raising_threshold_never_turns_on (plug : TuyaSmartPlug) (low high : Q) :
  (low <= high)%Q ->
  (evaluate_plug_state plug high).1 = (evaluate_plug_state plug low).1
  /\ ((evaluate_plug_state plug high).2 = On ->
      (evaluate_plug_state plug low).2 = On).
Proof.
  intros Hle. split; [done |].
  rewrite !device_state_spec, !state_On_iff, !andb_true_iff, !Qgtb_lt.
  intros [Hpower Hhigh]. split; [done |]. by eapply Qle_lt_trans.
Qed.

End Classifier.

Lemma negative_threshold_tracks_plug_witness :
  (0 <= power_w plug_150W)%Q /\ (- 1 < 0)%Q
  /\ (evaluate_plug_state plug_150W (- 1)).2 = (evaluate_plug_state plug_150W (- 1)).1.
Proof.
  assert (0 <= power_w plug_150W)%Q as Hpow by (simpl; discriminate).
  assert (- 1 < 0)%Q as Hthr by reflexivity.
  split; [exact Hpow |]. split; [exact Hthr |].
  exact (negative_threshold_tracks_plug plug_150W (- 1) Hpow Hthr).
Defined.

(** ** Floats *)

Section Floats.

#[local] Open Scope Q_scope.
















End Floats.

(** ** Reading a payload *)

Section FromRaw.

Lemma build_dps_reported (items : list Py.val) (dps : gmap string Py.val) :
  forallb item_ok items = true ->
  exists dps',
    build_dps items dps = Ok dps'
    /\ forall k, dps' !! k = match reported items k with
                             | Some v => Some v
                             | None => dps !! k
                             end.
Proof.
  revert dps. induction items as [| item rest IH]; intros dps Hok.
  - exists dps. by split.
  - simpl in Hok. apply andb_true_iff in Hok as [Hitem Hrest].
    destruct item as [| | | | | | d]; try discriminate.
    simpl in Hitem.
    destruct (d !! "code") as [[| | | | c | |] |] eqn:Hcode; try discriminate.
    destruct (d !! "value") as [v |] eqn:Hvalue; try discriminate.
    destruct (IH (<[c := v]> dps) Hrest) as (dps' & Hbuild & Hlook).
    exists dps'. split.
    + cbn [build_dps Py.getitem]. rewrite Hcode, Hvalue. exact Hbuild.
    + intros k. rewrite Hlook. cbn [reported code_is]. rewrite Hcode.
      destruct (reported rest k); [done |].
      destruct (String.eqb_spec k c) as [-> | Hne].
      * by rewrite lookup_insert_eq, Hvalue.
      * by rewrite lookup_insert_ne.
Qed.




Lemma iter_items raw items :
  items_of raw = Some items ->
  Py.iter (Py.get raw "result" (Py.VList [])) = Ok items.
Proof.
  unfold items_of, Py.get.
  destruct (raw !! "result") as [[| | | | | l |] |]; simpl; congruence.
Qed.

(** From a payload whose items are in order, [from_raw] makes the snapshot
    of the values they report. *)
Lemma from_raw_items_ok raw items :
  Py.truthy (Py.get raw "success" Py.VNone) = true ->
  items_of raw = Some items ->
  forallb item_ok items = true ->
  from_raw raw = snapshot_of items.
Proof.
  intros Hsuccess Hitems Hok.
  destruct (build_dps_reported items ∅ Hok) as (dps & Hbuild & Hlook).
  assert (forall k dflt, Py.get dps k dflt = default dflt (reported items k))
    as Hget.
  { intros k dflt. unfold Py.get. rewrite Hlook, lookup_empty.
    by destruct (reported items k). }
  unfold from_raw, snapshot_of. rewrite Hsuccess. cbn [negb].
  rewrite (iter_items _ _ Hitems). cbn [mbind result_bind]. rewrite Hbuild.
  cbn [mbind result_bind]. by rewrite !Hget.
Qed.




End FromRaw.



(** ** The history store *)

Section Store.

Variable E : env.

Lemma calm_empty a : calm E a a.
Proof. intros n ?. lia. Qed.

Lemma calm_step a b : calm E a b -> sqlite_fault E b = None -> calm E a (S b).
Proof.
  intros Hab Hb n Hn. destruct (decide (n = b)) as [-> | ?]; [done |].
  apply Hab. lia.
Qed.

Lemma calm_trans a b c : calm E a b -> calm E b c -> calm E a c.
Proof.
  intros Hab Hbc n Hn. destruct (decide (n < b)%nat); [apply Hab | apply Hbc]; lia.
Qed.


Lemma after_trans m1 ops1 m2 ops2 m3 :
  after E m1 ops1 m2 -> after E m2 ops2 m3 -> after E m1 (ops1 ++ ops2) m3.
Proof.
  intros [Ht1 Hc1 Hs1] [Ht2 Hc2 Hs2]. split.
  - by rewrite Ht2, Ht1, app_assoc.
  - eapply calm_trans; eauto.
  - congruence.
Qed.

Lemma attempt_ok o m m' :
  attempt E o m = (Ok (), m') ->
  after E m [o] m' /\ db m' = db m /\ log m' = log m.
Proof.
  unfold attempt. intros H.
  destruct (sqlite_fault E (length (trace m))) eqn:Hf; simplify_eq/=.
  repeat split; try done.
  cbn. rewrite length_app. cbn. replace (length (trace m) + 1)%nat
    with (S (length (trace m))) by lia.
  apply calm_step; [apply calm_empty | done].
Qed.

Lemma attempt_raise o m e m' :
  attempt E o m = (Raise e, m') ->
  sqlite_fault E (length (trace m)) = Some e
  /\ trace m' = trace m ++ [o] /\ db m' = db m /\ log m' = log m
  /\ stdout m' = stdout m.
Proof.
  unfold attempt. intros H.
  destruct (sqlite_fault E (length (trace m))) eqn:Hf; by simplify_eq/=.
Qed.

Lemma execute_ok s m m' :
  execute E s m = (Ok (), m') ->
  after E m [Execute s] m' /\ db m' = apply_stmt s (db m) /\ log m' = log m.
Proof.
  unfold execute, mbind, Cmd_bind, lift, get_db, set_db. intros H.
  destruct (match s with InsertEventLog r => bind_event r | _ => Ok () end);
    [| discriminate].
  destruct (attempt E (Execute s) m) as [[[] | e] m1] eqn:Hat; [| discriminate].
  apply attempt_ok in Hat as ([Ht Hc Hs] & Hdb & Hlog). simplify_eq/=.
  repeat split; first [done | cbn; congruence].
Qed.

Lemma execute_bound (r : event_row) m m' :
  execute E (InsertEventLog r) m = (Ok (), m') -> bind_event r = Ok ().
Proof.
  unfold execute, mbind, Cmd_bind, lift. intros H.
  by destruct (bind_event r) as [[] |].
Qed.

Lemma logger_info_ok msg ps ds m r m' :
  logger_info msg ps ds m = (r, m') ->
  r = Ok () /\ after E m [] m' /\ db m' = db m
  /\ log m' = log m ++ [LogInfo msg ps ds].
Proof.
  unfold logger_info. intros H. simplify_eq/=.
  repeat split; cbn; try done; [by rewrite app_nil_r | apply calm_empty].
Qed.

(** *** The table of intervals *)

Lemma update_end_last now older (r : status_row) :
  update_end now (length (older ++ [r])) (older ++ [r]) = older ++ [set_end now r].
Proof.
  rewrite length_app. cbn [length]. replace (length older + 1)%nat
    with (S (length older + 0)) by lia.
  cbn [update_end]. by rewrite alter_app_r.
Qed.

Lemma last_status_snoc older (r : status_row) :
  last_status (older ++ [r])
  = Some (length (older ++ [r]), plug_state r, device_state r).
Proof. unfold last_status. by rewrite last_snoc. Qed.

Lemma merge_same now pair older (r : status_row) :
  pair = (plug_state r, device_state r) ->
  merge_or_append now pair (older ++ [r]) = older ++ [set_end now r].
Proof.
  intros ->. unfold merge_or_append. rewrite last_status_snoc.
  rewrite decide_True by done. apply update_end_last.
Qed.

Lemma merge_other now pair older (r : status_row) :
  pair <> (plug_state r, device_state r) ->
  merge_or_append now pair (older ++ [r])
  = (older ++ [r]) ++ [{| start := now; end_ := now;
                          plug_state := pair.1; device_state := pair.2 |}].
Proof.
  intros Hne. unfold merge_or_append. rewrite last_status_snoc.
  by rewrite decide_False.
Qed.

(** *** One sample *)

Lemma interval_write_effect now pair (d : database) :
  status_log (apply_stmt (interval_write now pair (status_log d)) d)
  = merge_or_append now pair (status_log d)
  /\ event_log (apply_stmt (interval_write now pair (status_log d)) d)
    = event_log d.
Proof.
  unfold interval_write, merge_or_append.
  destruct (last_status (status_log d)) as [[[rowid lp] ld] |]; [| done].
  by destruct (decide (pair = (lp, ld))).
Qed.

Lemma interval_write_kind now pair rows :
  (exists rowid, interval_write now pair rows = UpdateStatusEnd now rowid)
  \/ interval_write now pair rows
     = InsertStatusLog {| start := now; end_ := now;
                          plug_state := pair.1; device_state := pair.2 |}.
Proof.
  unfold interval_write.
  destruct (last_status rows) as [[[rowid lp] ld] |]; [| by right].
  destruct (decide (pair = (lp, ld))); [left; by exists rowid | by right].
Qed.

Lemma insert_new_state_ok now ps ds m m' :
  insert_new_state E now ps ds m = (Ok (), m') ->
  let new := {| start := now; end_ := now;
                plug_state := ps; device_state := ds |} in
  after E m [Execute (InsertStatusLog new)] m'
  /\ db m' = apply_stmt (InsertStatusLog new) (db m)
  /\ log m' = log m ++ [LogInfo "Logged new state; Plug: {}, Device: {}" ps ds].
Proof.
  intros H new. subst new. unfold insert_new_state, mbind, Cmd_bind in H.
  destruct (execute E _ m) as [[[] | e] m1] eqn:Hex; [| discriminate].
  apply execute_ok in Hex as (Haft & Hdb & Hlog).
  apply logger_info_ok in H as (_ & Haft' & Hdb' & Hlog').
  split; [| split; congruence].
  pose proof (after_trans _ _ _ _ _ Haft Haft') as Hboth.
  by rewrite app_nil_r in Hboth.
Qed.

Lemma write_sample_ok now plug ps ds m m' :
  write_sample E now plug ps ds m = (Ok (), m') ->
  exists ev msg,
    event_of E now plug ps ds = Ok ev
    /\ bind_event ev = Ok ()
    /\ after E m [Execute (InsertEventLog ev); Execute SelectLastStatus;
                  Execute (interval_write now (ps, ds) (status_log (db m)))] m'
    /\ event_log (db m') = event_log (db m) ++ [ev]
    /\ status_log (db m') = merge_or_append now (ps, ds) (status_log (db m))
    /\ log m' = log m ++ [LogInfo msg ps ds].
Proof.
  unfold write_sample, mbind at 1, Cmd_bind at 1, lift. intros H.
  destruct (event_of E now plug ps ds) as [ev |]; [| discriminate].
  unfold mbind at 1, Cmd_bind at 1 in H.
  destruct (execute E (InsertEventLog ev) m) as [[[] | e] m1] eqn:Hins;
    [| discriminate].
  pose proof (execute_bound _ _ _ Hins) as Hbound.
  apply execute_ok in Hins as (Haft1 & Hdb1 & Hlog1).
  unfold mbind at 1, Cmd_bind at 1 in H.
  destruct (execute E SelectLastStatus m1) as [[[] | e] m2] eqn:Hsel;
    [| discriminate].
  apply execute_ok in Hsel as (Haft2 & Hdb2 & Hlog2).
  pose proof (after_trans _ _ _ _ _ Haft1 Haft2) as Haft12.
  unfold mbind at 1, Cmd_bind at 1, get_db in H.
  assert (status_log (db m2) = status_log (db m)) as Hrows
    by by rewrite Hdb2, Hdb1.
  assert (event_log (db m2) = event_log (db m) ++ [ev]) as Hevents
    by by rewrite Hdb2, Hdb1.
  destruct (interval_write_effect now (ps, ds) (db m2)) as [Hst Hev].
  unfold interval_write, merge_or_append in *. rewrite Hrows in *.
  cbn [fst snd] in *.
  destruct (last_status (status_log (db m))) as [[[rowid lp] ld] |].
  - destruct (decide ((ps, ds) = (lp, ld))).
    + unfold mbind, Cmd_bind in H.
      destruct (execute E _ m2) as [[[] | e'] m3] eqn:Hupd; [| discriminate].
      apply execute_ok in Hupd as (Haft3 & Hdb3 & Hlog3).
      apply logger_info_ok in H as (_ & Haft4 & Hdb4 & Hlog4).
      pose proof (after_trans _ _ _ _ _ Haft3 Haft4) as Haft34.
      pose proof (after_trans _ _ _ _ _ Haft12 Haft34) as Hall.
      eexists ev, _. split_and!; try done.
      * rewrite Hdb4, Hdb3. by rewrite Hev.
      * rewrite Hdb4, Hdb3. by rewrite Hst.
      * rewrite Hlog4, Hlog3, Hlog2, Hlog1. done.
    + apply insert_new_state_ok in H as (Haft3 & Hdb3 & Hlog3).
      pose proof (after_trans _ _ _ _ _ Haft12 Haft3) as Hall.
      eexists ev, _. split_and!; try done.
      * rewrite Hdb3. by rewrite Hev.
      * rewrite Hdb3. by rewrite Hst.
      * rewrite Hlog3, Hlog2, Hlog1. done.
  - apply insert_new_state_ok in H as (Haft3 & Hdb3 & Hlog3).
    pose proof (after_trans _ _ _ _ _ Haft12 Haft3) as Hall.
    eexists ev, _. split_and!; try done.
    * rewrite Hdb3. by rewrite Hev.
    * rewrite Hdb3. by rewrite Hst.
    * rewrite Hlog3, Hlog2, Hlog1. done.
Qed.

(** *** The connection as a context manager *)

Lemma with_connection_ok {A} (body : Cmd A) m a m' :
  with_connection E body m = (Ok a, m') ->
  exists m1 m2,
    attempt E Connect m = (Ok (), m1)
    /\ body m1 = (Ok a, m2)
    /\ attempt E Commit m2 = (Ok (), m').
Proof.
  unfold with_connection. intros H.
  destruct (attempt E Connect m) as [[[] | e] m1] eqn:Hcon; [| discriminate].
  destruct (body m1) as [[a' | e] m2] eqn:Hbody; [| discriminate].
  destruct (attempt E Commit m2) as [[[] | e] m3] eqn:Hcommit; [| discriminate].
  simplify_eq. by exists m1, m2.
Qed.

Lemma with_connection_raise {A} (body : Cmd A) m e m' :
  with_connection E body m = (Raise e, m') -> db m' = db m.
Proof.
  unfold with_connection. intros H.
  destruct (attempt E Connect m) as [[[] | e1] m1] eqn:Hcon.
  - destruct (body m1) as [[a' | e2] m2]; [| by simplify_eq].
    destruct (attempt E Commit m2) as [[[] | e3] m3]; by simplify_eq.
  - apply attempt_raise in Hcon as (_ & _ & Hdb & _). by simplify_eq.
Qed.

Lemma with_connection_raise_sample now plug thr m e m' :
  record_sample E now plug thr m = (Raise e, m') -> db m' = db m.
Proof.
  unfold record_sample. destruct (evaluate_plug_state plug thr) as [ps ds].
  apply with_connection_raise.
Qed.

Lemma record_sample_ok now plug thr m m' :
  record_sample E now plug thr m = (Ok (), m') ->
  exists ev msg,
    event_of E now plug (evaluate_plug_state plug thr).1
                        (evaluate_plug_state plug thr).2 = Ok ev
    /\ bind_event ev = Ok ()
    /\ after E m [Connect; Execute (InsertEventLog ev); Execute SelectLastStatus;
                  Execute (interval_write now (evaluate_plug_state plug thr)
                             (status_log (db m)));
                  Commit] m'
    /\ event_log (db m') = event_log (db m) ++ [ev]
    /\ status_log (db m')
       = merge_or_append now (evaluate_plug_state plug thr) (status_log (db m))
    /\ log m' = log m ++ [LogInfo msg (evaluate_plug_state plug thr).1
                                      (evaluate_plug_state plug thr).2].
Proof.
  unfold record_sample.
  destruct (evaluate_plug_state plug thr) as [ps ds]. cbn [fst snd]. intros H.
  apply with_connection_ok in H as (m1 & m2 & Hcon & Hbody & Hcommit).
  apply attempt_ok in Hcon as (Haft1 & Hdb1 & Hlog1).
  apply attempt_ok in Hcommit as (Haft3 & Hdb3 & Hlog3).
  apply write_sample_ok in Hbody
    as (ev & msg & Hev & Hbound & Haft2 & Hevents & Hrows & Hlog2).
  exists ev, msg. rewrite Hdb1 in *.
  split_and!; [done | done | | congruence | congruence | congruence].
  exact (after_trans _ _ _ _ _ Haft1 (after_trans _ _ _ _ _ Haft2 Haft3)).
Qed.

Lemma ops_since_after m ops m' : after E m ops m' -> ops_since m m' = ops.
Proof. intros [Ht _ _]. unfold ops_since. rewrite Ht. apply drop_app_length. Qed.

Lemma record_sample_connects now plug thr m e :
  sqlite_fault E (length (trace m)) = Some e ->
  (record_sample E now plug thr m).1 = Raise e.
Proof.
  intros Hfault. unfold record_sample.
  destruct (evaluate_plug_state plug thr) as [ps ds].
  unfold with_connection, attempt. by rewrite Hfault.
Qed.

(** C5.  A call that finds SQLite unavailable (the connection fails), or
    that meets a failure of any operation it attempts on it (a statement,
    the commit), fails with an exception; a call that fails leaves the
    database as it found it, with neither write; a call that does not fail
    has made both writes, the event row and the interval insert-or-update. *)
Theorem record_sample_atomic now plug thr m :
  let r := (record_sample E now plug thr m).1 in
  let m' := (record_sample E now plug thr m).2 in
  (forall e, sqlite_fault E (length (trace m)) = Some e -> r = Raise e)
  /\ ((exists n, (length (trace m) <= n < length (trace m'))%nat
                 /\ sqlite_fault E n <> None) ->
      exists e, r = Raise e)
  /\ ((exists e, r = Raise e) -> db m' = db m)
  /\ (r = Ok () ->
      exists ev,
        event_of E now plug (evaluate_plug_state plug thr).1
                            (evaluate_plug_state plug thr).2 = Ok ev
        /\ event_log (db m') = event_log (db m) ++ [ev]
        /\ status_log (db m')
           = merge_or_append now (evaluate_plug_state plug thr) (status_log (db m))).
Proof.
  intros r m'. subst r m'. split; [apply record_sample_connects |].
  destruct (record_sample E now plug thr m) as [[[] | e] m'] eqn:Hrun; cbn [fst snd].
  - apply record_sample_ok in Hrun
      as (ev & msg & Hev & _ & [_ Hcalm _] & Hevents & Hrows & _).
    split_and!.
    + intros (n & Hn & Hfault). by rewrite (Hcalm n Hn) in Hfault.
    + by intros [e ?].
    + intros _. by exists ev.
  - apply with_connection_raise_sample in Hrun. split_and!; [eauto | done | done].
Qed.

Lemma count_ops p (o : op) (ops : list op) :
  count p (o :: ops) = ((if p o then 1 else 0) + count p ops)%nat.
Proof.
  unfold count. rewrite filter_cons.
  destruct (decide (p o = true)) as [-> | Hp]; [done |].
  by apply not_true_is_false in Hp as ->.
Qed.

(** C6.  A successful call runs, between connecting and committing, exactly
    one insert into [event_log], the lookup of the latest interval, and
    exactly one statement on [status_log].  That statement is either the
    update of the end of the latest interval, the row with the highest
    rowid, which is run when that interval carries the pair of the sample
    and leaves the table with its last row ending now; or the insert of a
    new interval, which is run when the table is empty or its latest
    interval carries another pair and leaves the table with one more row.
    The call never runs both, and the event row is appended to
    [event_log]. *)
Theorem record_sample_writes_once now plug thr m m' :
  record_sample E now plug thr m = (Ok (), m') ->
  let pair := evaluate_plug_state plug thr in
  let new := {| start := now; end_ := now;
                plug_state := pair.1; device_state := pair.2 |} in
  let w := interval_write now pair (status_log (db m)) in
  (exists ev,
     event_of E now plug pair.1 pair.2 = Ok ev
     /\ ops_since m m' = [Connect; Execute (InsertEventLog ev);
                          Execute SelectLastStatus; Execute w; Commit]
     /\ event_log (db m') = event_log (db m) ++ [ev]
     /\ db m' = apply_stmt w (apply_stmt (InsertEventLog ev) (db m)))
  /\ ((exists older latest,
         status_log (db m) = older ++ [latest]
         /\ pair_of_row latest = pair
         /\ w = UpdateStatusEnd now (length (status_log (db m)))
         /\ status_log (db m')
            = older ++ [{| start := start latest; end_ := now;
                           plug_state := plug_state latest;
                           device_state := device_state latest |}]
         /\ count is_status_update (ops_since m m') = 1%nat
         /\ count is_status_insert (ops_since m m') = 0%nat)
      \/ ((status_log (db m) = []
           \/ exists latest,
                last (status_log (db m)) = Some latest
                /\ pair_of_row latest <> pair)
          /\ w = InsertStatusLog new
          /\ status_log (db m') = status_log (db m) ++ [new]
          /\ count is_status_insert (ops_since m m') = 1%nat
          /\ count is_status_update (ops_since m m') = 0%nat))
  /\ count is_event_insert (ops_since m m') = 1%nat
  /\ (count is_status_insert (ops_since m m')
      + count is_status_update (ops_since m m') = 1)%nat.
Proof.
  intros Hrun pair new w.
  apply record_sample_ok in Hrun
    as (ev & msg & Hev & _ & Hafter & Hevents & Hrows & _).
  fold pair in Hev, Hafter, Hrows. fold w in Hafter.
  rewrite (ops_since_after _ _ _ Hafter).
  destruct (interval_write_effect now pair (db m)) as [Hst Hsame].
  fold w in Hst, Hsame.
  assert ((exists older latest,
             status_log (db m) = older ++ [latest]
             /\ pair_of_row latest = pair
             /\ w = UpdateStatusEnd now (length (status_log (db m)))
             /\ status_log (db m')
                = older ++ [{| start := start latest; end_ := now;
                               plug_state := plug_state latest;
                               device_state := device_state latest |}])
          \/ ((status_log (db m) = []
               \/ exists latest,
                    last (status_log (db m)) = Some latest
                    /\ pair_of_row latest <> pair)
              /\ w = InsertStatusLog new
              /\ status_log (db m') = status_log (db m) ++ [new])) as Hcases.
  { rewrite Hrows. subst w. unfold interval_write, merge_or_append.
    fold new.
    destruct (last (status_log (db m))) as [latest |] eqn:Hlast.
    - pose proof Hlast as Hlatest.
      apply last_Some in Hlast as [older Holder]. rewrite Holder.
      rewrite last_status_snoc.
      destruct (decide (pair = (plug_state latest, device_state latest)))
        as [Heq | Hne].
      + left. exists older, latest.
        split_and!; [done | done | done | apply update_end_last].
      + right. split_and!; [| done | done].
        right. exists latest. split; [done |].
        unfold pair_of_row. congruence.
    - apply last_None in Hlast. rewrite Hlast. right.
      split_and!; [by left | done | done]. }
  split_and!.
  - exists ev. split_and!; [done | done | done |].
    destruct (db m') as [rows' events'], (db m) as [rows events].
    cbn [status_log event_log] in *. subst events'.
    destruct Hcases as [(older & latest & _ & _ & Hw & Hrows')
                       | (_ & Hw & Hrows')];
      rewrite Hw in *; cbn [apply_stmt status_log event_log] in *; congruence.
  - destruct Hcases as [(older & latest & Holder & Hpair & Hw & Hrows')
                       | (Hlast & Hw & Hrows')].
    + left. exists older, latest. rewrite !count_ops, Hw. by split_and!.
    + right. rewrite !count_ops, Hw. by split_and!.
  - rewrite !count_ops. cbn.
    by destruct Hcases as [(? & ? & _ & _ & -> & _) | (_ & -> & _)].
  - rewrite !count_ops. cbn.
    by destruct Hcases as [(? & ? & _ & _ & -> & _) | (_ & -> & _)].
Qed.

(** C2.  When the latest interval of the store is (T0, T1, P) and a sample
    taken at T2 > T1 is classified as P, recording it turns that interval
    into (T0, T2, P) where it stands, leaves every older interval alone and
    inserts no interval. *)
Theorem same_pair_extends_latest T0 T1 T2 P plug thr m m' :
  let latest := {| start := T0; end_ := T1;
                   plug_state := P.1; device_state := P.2 |} in
  last (status_log (db m)) = Some latest ->
  T1 < T2 ->
  evaluate_plug_state plug thr = P ->
  record_sample E T2 plug thr m = (Ok (), m') ->
  (exists older,
     status_log (db m) = older ++ [latest]
     /\ status_log (db m')
        = older ++ [{| start := T0; end_ := T2;
                       plug_state := P.1; device_state := P.2 |}])
  /\ length (status_log (db m')) = length (status_log (db m))
  /\ count is_status_insert (ops_since m m') = 0%nat.
Proof.
  intros latest Hlast _ Hpair Hrun.
  apply last_Some in Hlast as [older Holder].
  apply record_sample_ok in Hrun
    as (ev & msg & _ & _ & Hafter & _ & Hrows & _).
  rewrite Hpair, Holder in Hrows.
  rewrite merge_same in Hrows by by destruct P.
  rewrite (ops_since_after _ _ _ Hafter).
  split_and!.
  - by exists older.
  - rewrite Hrows, Holder, !length_app. done.
  - rewrite !count_ops. cbn. rewrite Hpair, Holder.
    unfold interval_write. rewrite last_status_snoc.
    rewrite decide_True; [done | by destruct P].
Qed.

(** C7.  When the latest interval of the store is (T0, T1, P) and a sample
    taken at T2 is classified as Q, different from P, recording it leaves
    every interval of the store as it is, (T0, T1, P) included, and appends
    exactly one interval, (T2, T2, Q). *)
Theorem other_pair_starts_interval T0 T1 T2 P Q plug thr m m' :
  let latest := {| start := T0; end_ := T1;
                   plug_state := P.1; device_state := P.2 |} in
  last (status_log (db m)) = Some latest ->
  evaluate_plug_state plug thr = Q ->
  Q <> P ->
  record_sample E T2 plug thr m = (Ok (), m') ->
  status_log (db m')
  = status_log (db m) ++ [{| start := T2; end_ := T2;
                             plug_state := Q.1; device_state := Q.2 |}]
  /\ last (removelast (status_log (db m'))) = Some latest
  /\ count is_status_insert (ops_since m m') = 1%nat
  /\ count is_status_update (ops_since m m') = 0%nat.
Proof.
  intros latest Hlast Hpair Hne Hrun.
  apply last_Some in Hlast as [older Holder].
  apply record_sample_ok in Hrun
    as (ev & msg & _ & _ & Hafter & _ & Hrows & _).
  rewrite Hpair, Holder in Hrows.
  rewrite merge_other in Hrows by (by destruct P).
  rewrite (ops_since_after _ _ _ Hafter).
  assert (interval_write T2 Q (status_log (db m))
          = InsertStatusLog {| start := T2; end_ := T2;
                               plug_state := Q.1; device_state := Q.2 |}) as Hw.
  { rewrite Holder. unfold interval_write. rewrite last_status_snoc.
    rewrite decide_False; [done | by destruct P]. }
  split_and!.
  - by rewrite Hrows, Holder.
  - rewrite Hrows, removelast_last. by rewrite last_snoc.
  - rewrite !count_ops, Hpair, Hw. done.
  - rewrite !count_ops, Hpair, Hw. done.
Qed.

(** *** A sequence of samples *)

Lemma record_all_steps samples m m' :
  record_all E samples m = (Ok (), m') ->
  status_log (db m') = fold_left step samples (status_log (db m)).
Proof.
  revert m. induction samples as [| s rest IH]; intros m Hrun.
  - unfold record_all, for_each, mret, Cmd_ret in Hrun. by simplify_eq.
  - unfold record_all in Hrun. cbn [for_each] in Hrun.
    unfold mbind, Cmd_bind in Hrun.
    destruct (record_sample E (ts s) (snapshot s) (threshold s) m)
      as [[[] | e] m1] eqn:Hone; [| discriminate].
    apply record_sample_ok in Hone as (_ & _ & _ & _ & _ & _ & Hrows & _).
    cbn [fold_left]. unfold step at 2, pair_of. rewrite <- Hrows.
    by apply IH.
Qed.

Lemma step_cases rows s :
  (rows = [] /\ step rows s = [{| start := ts s; end_ := ts s;
                                  plug_state := (pair_of s).1;
                                  device_state := (pair_of s).2 |}])
  \/ (exists older r, rows = older ++ [r] /\ pair_of s = pair_of_row r
                      /\ step rows s = older ++ [set_end (ts s) r])
  \/ (exists older r, rows = older ++ [r] /\ pair_of s <> pair_of_row r
                      /\ step rows s
                         = rows ++ [{| start := ts s; end_ := ts s;
                                       plug_state := (pair_of s).1;
                                       device_state := (pair_of s).2 |}]).
Proof.
  destruct (last rows) as [r |] eqn:Hlast.
  - apply last_Some in Hlast as [older ->]. right.
    destruct (decide (pair_of s = pair_of_row r)) as [Heq | Hne].
    + left. exists older, r. split_and!; [done | done |].
      by apply merge_same.
    + right. exists older, r. split_and!; [done | done |].
      by apply merge_other.
  - apply last_None in Hlast as ->. by left.
Qed.

Lemma step_tidy t rows s : tidy t rows -> t < ts s -> tidy (ts s) (step rows s).
Proof.
  intros (Hproper & Hsorted & Hended) Hlate.
  destruct (step_cases rows s)
    as [[-> ->] | [(older & r & -> & _ & ->) | (older & r & -> & _ & ->)]].
  - split_and!.
    + repeat constructor. unfold proper. cbn. lia.
    + repeat constructor.
    + repeat constructor. cbn. lia.
  - apply Forall_app in Hproper as [Hproper Hr].
    apply Forall_app in Hended as [Hended Hr'].
    apply StronglySorted_app in Hsorted as (Hcross & Hsorted & _).
    rewrite Forall_singleton in Hr, Hr'. unfold proper in Hr.
    split_and!.
    + apply Forall_app. split; [done |]. apply Forall_singleton.
      unfold proper. cbn. lia.
    + apply StronglySorted_app. split_and!; [| done | repeat constructor].
      intros a b Ha Hb. apply list_elem_of_singleton in Hb as ->.
      apply (Hcross a r Ha). by apply list_elem_of_singleton.
    + apply Forall_app. split.
      * eapply Forall_impl; [exact Hended |]. cbn. intros; lia.
      * apply Forall_singleton. cbn. lia.
  - split_and!.
    + apply Forall_app. split; [done |]. apply Forall_singleton.
      unfold proper. cbn. lia.
    + apply StronglySorted_app. split_and!; [| done | repeat constructor].
      intros a b Ha Hb. apply list_elem_of_singleton in Hb as ->.
      unfold before. cbn.
      rewrite Forall_forall in Hended. specialize (Hended a Ha). cbn in Hended. lia.
    + apply Forall_app. split.
      * eapply Forall_impl; [exact Hended |]. cbn. intros; lia.
      * apply Forall_singleton. cbn. lia.
Qed.

Lemma steps_tidy samples t rows :
  tidy t rows -> increasing (t :: (ts <$> samples)) ->
  exists t', tidy t' (fold_left step samples rows).
Proof.
  revert t rows. induction samples as [| s rest IH]; intros t rows Htidy Hinc.
  - by exists t.
  - cbn in Hinc. destruct Hinc as [Hlate Hinc].
    cbn [fold_left].
    eapply IH; [eapply step_tidy; [exact Htidy | exact Hlate] | exact Hinc].
Qed.

Lemma tidy_starts t rows : tidy t rows -> StronglySorted starts_before rows.
Proof.
  intros (Hproper & Hsorted & _).
  induction Hsorted as [| a rows Hsorted IH Hall]; [constructor |].
  apply Forall_cons in Hproper as [Ha Hproper].
  constructor; [by apply IH |].
  eapply Forall_impl; [exact Hall |].
  unfold before, starts_before, proper in *. intros; lia.
Qed.

Lemma transitions_cons (p q : state * state) rest :
  Spec.transitions (p :: q :: rest)
  = ((if decide (p = q) then 0 else 1) + Spec.transitions (q :: rest))%nat.
Proof. reflexivity. Qed.

Lemma steps_length samples older r :
  length (fold_left step samples (older ++ [r]))
  = (length (older ++ [r])
     + Spec.transitions (pair_of_row r :: (pair_of <$> samples)))%nat.
Proof.
  revert older r. induction samples as [| s rest IH]; intros older r.
  - cbn. lia.
  - cbn [fold_left fmap list_fmap]. rewrite transitions_cons.
    destruct (step_cases (older ++ [r]) s)
      as [[Hnil _] | [(older' & r' & Hsame & Hpair & ->)
                      | (older' & r' & Hsame & Hpair & ->)]].
    + by destruct older.
    + apply app_inj_tail in Hsame as [<- <-].
      rewrite IH. rewrite decide_True by done.
      rewrite !length_app. cbn [length].
      replace (pair_of_row (set_end (ts s) r)) with (pair_of s)
        by (by rewrite Hpair).
      lia.
    + apply app_inj_tail in Hsame as [<- <-].
      rewrite IH. rewrite decide_False by done.
      rewrite !length_app. cbn [length].
      unfold pair_of_row at 1. cbn [plug_state device_state].
      rewrite <- surjective_pairing. lia.
Qed.

Lemma steps_length_fresh s rest :
  length (fold_left step (s :: rest) [])
  = S (Spec.transitions (pair_of <$> s :: rest)).
Proof.
  cbn [fold_left]. change (step [] s) with
    ([] ++ [{| start := ts s; end_ := ts s; plug_state := (pair_of s).1;
               device_state := (pair_of s).2 |}]).
  rewrite steps_length. unfold pair_of_row. cbn [plug_state device_state length app].
  by rewrite <- surjective_pairing.
Qed.

(** C1, as amended.  Starting from an empty [status_log], after recording a
    sequence of samples with strictly increasing timestamps: every interval
    is proper, each interval has ended before any later one starts (they do
    not overlap), the intervals are in the order of their starts, and their
    number is the number of transitions of the State Pair along the sequence
    plus one when the sequence is not empty, and zero when it is empty; in
    both cases it is never more than the number of transitions plus one. *)
Theorem intervals_follow_transitions samples m m' :
  status_log (db m) = [] ->
  increasing (ts <$> samples) ->
  record_all E samples m = (Ok (), m') ->
  Forall proper (status_log (db m'))
  /\ StronglySorted before (status_log (db m'))
  /\ StronglySorted starts_before (status_log (db m'))
  /\ (samples <> [] ->
      length (status_log (db m')) = S (Spec.transitions (pair_of <$> samples)))
  /\ (samples = [] -> status_log (db m') = [])
  /\ (length (status_log (db m')) <= Spec.transitions (pair_of <$> samples) + 1)%nat.
Proof.
  intros Hempty Hinc Hrun.
  apply record_all_steps in Hrun. rewrite Hempty in Hrun. rewrite Hrun.
  assert (exists t, tidy t (fold_left step samples [])) as [t Htidy].
  { destruct samples as [| s rest]; [by exists 0; repeat constructor |].
    apply (steps_tidy (s :: rest) (ts s - 1)); [by repeat constructor |].
    split; [lia | done]. }
  pose proof (tidy_starts _ _ Htidy) as Hstarts.
  destruct Htidy as (Hproper & Hsorted & _).
  split_and!; try done.
  - destruct samples as [| s rest]; [done |]. intros _.
    apply steps_length_fresh.
  - by intros ->.
  - destruct samples as [| s rest]; [cbn; lia |].
    rewrite steps_length_fresh. lia.
Qed.

(** The intervals before the latest one are never touched: a successful
    call leaves every row but the last of [status_log] where and as it was. *)
Theorem earlier_intervals_immutable now plug thr m m' (i : nat) (r : status_row) :
  record_sample E now plug thr m = (Ok (), m') ->
  status_log (db m) !! i = Some r ->
  (S i < length (status_log (db m)))%nat ->
  status_log (db m') !! i = Some r.
Proof.
  intros Hrun Hrow Hearlier.
  apply record_sample_ok in Hrun as (_ & _ & _ & _ & _ & _ & Hrows & _).
  rewrite Hrows. clear Hrows.
  destruct (last (status_log (db m))) as [latest |] eqn:Hlast.
  - apply last_Some in Hlast as [older Holder]. rewrite Holder in *.
    rewrite length_app in Hearlier. cbn in Hearlier.
    rewrite lookup_app_l in Hrow by lia.
    destruct (decide (evaluate_plug_state plug thr = pair_of_row latest)).
    + rewrite merge_same by done. by rewrite lookup_app_l by lia.
    + rewrite merge_other by done. rewrite <- app_assoc.
      by rewrite lookup_app_l by lia.
  - apply last_None in Hlast. rewrite Hlast in Hrow. done.
Qed.

(** The event row of a successful call: it is appended to [event_log], all
    earlier rows kept, and it carries the time of the sample, the
    classification, the power as an integer and the readings of the
    snapshot. *)
Theorem event_row_recorded now plug thr m m' :
  record_sample E now plug thr m = (Ok (), m') ->
  exists ev,
    event_log (db m') = event_log (db m) ++ [ev]
    /\ recorded_at ev = now
    /\ (ev_plug_state ev, ev_device_state ev) = evaluate_plug_state plug thr
    /\ Py.int (int_of_str E) (power plug) = Ok (plug_power ev)
    /\ countdown_s ev = countdown_1_s plug
    /\ ev_energy_wh ev = energy_wh plug
    /\ ev_current_a ev = current_a plug
    /\ ev_voltage_v ev = voltage_v plug
    /\ ev_power_w ev = power_w plug
    /\ ev_relay_status ev = relay_status plug
    /\ ev_fault_code ev = fault_code plug.
Proof.
  intros Hrun.
  apply record_sample_ok in Hrun as (ev & _ & Hev & _ & _ & Hevents & _).
  exists ev. split; [exact Hevents |].
  unfold event_of, mbind, result_bind in Hev.
  destruct (Py.int (int_of_str E) (power plug)) as [pp |]; [| discriminate].
  injection Hev as <-. cbn. split_and!; try done;
    by destruct (evaluate_plug_state plug thr).
Qed.

End Store.

(** ** The commands and their handlers *)

Section Commands.

Variable E : env.

Lemma with_connection_frame {A} (body : Cmd A) m r m' :
  (forall m1 r1 m2, body m1 = (r1, m2) -> log m2 = log m1) ->
  with_connection E body m = (r, m') -> log m' = log m.
Proof.
  unfold with_connection, attempt. intros Hbody H.
  destruct (sqlite_fault E (length (trace m))); [by simplify_eq |].
  destruct (body _) as [[a | e] m2] eqn:Hrun;
    apply Hbody in Hrun; cbn in Hrun.
  - destruct (sqlite_fault E (length (trace m2))); by simplify_eq.
  - by simplify_eq.
Qed.

Lemma execute_frame s m r m' :
  execute E s m = (r, m') -> log m' = log m.
Proof.
  unfold execute, mbind, Cmd_bind, lift, attempt, get_db, set_db. intros H.
  destruct (match s with InsertEventLog r => bind_event r | _ => Ok () end);
    [| by simplify_eq].
  destruct (sqlite_fault E (length (trace m))); by simplify_eq.
Qed.

Lemma ensure_db_frame m r m' :
  ensure_db E m = (r, m') -> db m' = db m /\ log m' = log m.
Proof.
  intros H. split.
  - destruct r as [[] | e]; [| by eapply with_connection_raise].
    apply with_connection_ok in H as (m1 & m2 & Hcon & Hbody & Hcommit).
    apply attempt_ok in Hcon as (_ & Hdb1 & _).
    apply attempt_ok in Hcommit as (_ & Hdb3 & _).
    unfold mbind, Cmd_bind in Hbody.
    destruct (execute E CreateStatusLog m1) as [[[] | e] m1'] eqn:Hone;
      [| discriminate].
    apply execute_ok in Hone as (_ & Hdb & _).
    apply execute_ok in Hbody as (_ & Hdb' & _).
    cbn [apply_stmt] in *. congruence.
  - eapply with_connection_frame; [| exact H].
    intros m1 r1 m2. unfold mbind, Cmd_bind.
    destruct (execute E CreateStatusLog m1) as [[[] | e] m1'] eqn:Hone;
      intros Htwo; apply execute_frame in Hone.
    + apply execute_frame in Htwo. congruence.
    + by simplify_eq.
Qed.

Lemma record_try_raise thr m e m' :
  record_try E thr m = (Raise e, m') -> db m' = db m.
Proof.
  unfold record_try, fetch_plug, mbind, Cmd_bind, lift. intros H.
  destruct (cloud_getstatus E) as [raw |]; [| by simplify_eq].
  destruct (from_raw raw) as [plug |]; [| by simplify_eq].
  by eapply with_connection_raise_sample.
Qed.

Lemma command_raises (body : Cmd unit) msg m e m' :
  (_ ← ensure_db E; try_except body (logger_error msg)) m = (Raise e, m')
  <-> ensure_db E m = (Raise e, m').
Proof.
  unfold mbind, Cmd_bind, try_except, logger_error.
  destruct (ensure_db E m) as [[[] | e1] m1]; [| done].
  destruct (body m1) as [[[] | e2] m2]; split; intros; by simplify_eq.
Qed.

Lemma command_catches (body : Cmd unit) msg m m1 e m2 :
  ensure_db E m = (Ok (), m1) ->
  body m1 = (Raise e, m2) ->
  (_ ← ensure_db E; try_except body (logger_error msg)) m
  = (Ok (), {| db := db m2; log := log m2 ++ [LogError msg e];
               stdout := stdout m2; trace := trace m2 |}).
Proof.
  intros Hdb Hbody. unfold mbind, Cmd_bind, try_except, logger_error.
  by rewrite Hdb, Hbody.
Qed.

(** C3, as amended.  [record] and [history] catch every exception raised
    inside their [try] block: when the cloud cannot be reached, when the
    payload is refused by [from_raw], when SQLite fails while the sample is
    written or the history read, the command logs the exception with
    [logger.error], leaves the database as it was, and returns normally.  The
    only exceptions that reach the caller are those of [ensure_db], which
    runs before the [try] block. *)
Theorem commands_catch_errors thr m :
  (forall e m', record E thr m = (Raise e, m') <-> ensure_db E m = (Raise e, m'))
  /\ (forall e m', history E m = (Raise e, m') <-> ensure_db E m = (Raise e, m'))
  /\ (forall m1, ensure_db E m = (Ok (), m1) ->
      (forall e, cloud_getstatus E = Raise e ->
         record_try E thr m1 = (Raise e, m1))
      /\ (forall raw e, cloud_getstatus E = Ok raw -> from_raw raw = Raise e ->
            record_try E thr m1 = (Raise e, m1))
      /\ (forall raw plug, cloud_getstatus E = Ok raw -> from_raw raw = Ok plug ->
            record_try E thr m1 = record_sample E (utc_now E) plug thr m1)
      /\ (forall e m2, record_try E thr m1 = (Raise e, m2) ->
            record E thr m
            = (Ok (), {| db := db m;
                         log := log m2 ++ [LogError "Failed to record state: {}" e];
                         stdout := stdout m2; trace := trace m2 |}))
      /\ (forall e m2, history_try E m1 = (Raise e, m2) ->
            history E m
            = (Ok (), {| db := db m;
                         log := log m2 ++ [LogError "Failed to load history: {}" e];
                         stdout := stdout m2; trace := trace m2 |}))).
Proof.
  split_and!.
  - intros e m'. apply command_raises.
  - intros e m'. apply command_raises.
  - intros m1 Hdb. pose proof (ensure_db_frame _ _ _ Hdb) as [Hsame _].
    split_and!.
    + intros e Hcloud. unfold record_try, fetch_plug, mbind, Cmd_bind, lift.
      by rewrite Hcloud.
    + intros raw e Hcloud Hraw.
      unfold record_try, fetch_plug, mbind, Cmd_bind, lift.
      by rewrite Hcloud, Hraw.
    + intros raw plug Hcloud Hraw.
      unfold record_try, fetch_plug, mbind, Cmd_bind, lift.
      by rewrite Hcloud, Hraw.
    + intros e m2 Hbody. unfold record.
      rewrite (command_catches _ _ _ _ _ _ Hdb Hbody).
      apply record_try_raise in Hbody. by rewrite Hbody, Hsame.
    + intros e m2 Hbody. unfold history.
      rewrite (command_catches _ _ _ _ _ _ Hdb Hbody).
      apply with_connection_raise in Hbody. by rewrite Hbody, Hsame.
Qed.

(** *** What [record] leaves in the database *)

Lemma record_unfold thr m :
  record E thr m
  = match ensure_db E m with
    | (Ok _, m1) =>
        match record_try E thr m1 with
        | (Ok a, m2) => (Ok a, m2)
        | (Raise e, m2) => logger_error "Failed to record state: {}" e m2
        end
    | (Raise e, m1) => (Raise e, m1)
    end.
Proof. reflexivity. Qed.

(** Whatever happens, [record] leaves the database either as it found it or
    with both writes made from the snapshot the cloud replied with. *)
Theorem record_all_or_nothing thr m :
  db (record E thr m).2 = db m
  \/ exists raw plug ev,
       cloud_getstatus E = Ok raw
       /\ from_raw raw = Ok plug
       /\ event_of E (utc_now E) plug (evaluate_plug_state plug thr).1
                                      (evaluate_plug_state plug thr).2 = Ok ev
       /\ event_log (db (record E thr m).2) = event_log (db m) ++ [ev]
       /\ status_log (db (record E thr m).2)
          = merge_or_append (utc_now E) (evaluate_plug_state plug thr)
              (status_log (db m)).
Proof.
  rewrite record_unfold.
  destruct (ensure_db E m) as [[[] | e] m1] eqn:Hdb;
    apply ensure_db_frame in Hdb as [Hsame _]; [| by left].
  destruct (record_try E thr m1) as [[[] | e] m2] eqn:Hbody; cbn [fst snd].
  - right. unfold record_try, fetch_plug, mbind, Cmd_bind, lift in Hbody.
    destruct (cloud_getstatus E) as [raw |]; [| discriminate].
    destruct (from_raw raw) as [plug |] eqn:Hraw; [| discriminate].
    apply record_sample_ok in Hbody
      as (ev & _ & Hev & _ & _ & Hevents & Hrows & _).
    exists raw, plug, ev. rewrite Hsame in *. by split_and!.
  - left. apply record_try_raise in Hbody. cbn. congruence.
Qed.

(** *** What [history] prints *)

#[local] Instance start_desc_total : Total start_desc.
Proof. intros a b. unfold start_desc. lia. Qed.

#[local] Instance start_desc_trans : Transitive start_desc.
Proof. intros a b c. unfold start_desc. lia. Qed.

Lemma starts_distinct (rows : list status_row) a b :
  StronglySorted starts_before rows ->
  a ∈ rows -> b ∈ rows -> start a = start b -> a = b.
Proof.
  intros Hsorted. induction Hsorted as [| x rows Hsorted IH Hall];
    intros Ha Hb Hstart; [by apply elem_of_nil in Ha |].
  rewrite Forall_forall in Hall. unfold starts_before in Hall.
  apply elem_of_cons in Ha as [-> | Ha], Hb as [-> | Hb]; [done | | | by apply IH].
  - specialize (Hall b Hb). lia.
  - specialize (Hall a Ha). lia.
Qed.

Lemma reverse_sorted_desc (rows : list status_row) :
  StronglySorted starts_before rows -> StronglySorted start_desc (reverse rows).
Proof.
  intros Hsorted. induction Hsorted as [| x rows Hsorted IH Hall];
    [constructor |].
  rewrite reverse_cons. apply StronglySorted_app. split_and!.
  - intros a b Ha Hb. apply list_elem_of_singleton in Hb as ->.
    rewrite elem_of_reverse in Ha. rewrite Forall_forall in Hall.
    specialize (Hall a Ha). unfold starts_before, start_desc in *. lia.
  - exact IH.
  - repeat constructor.
Qed.

#[local] Instance select_order_total : Total (select_order E).
Proof. intros [i a] [j b]. unfold select_order. cbn. lia. Qed.

#[local] Instance select_order_trans : Transitive (select_order E).
Proof. intros [i a] [j b] [k c]. unfold select_order. cbn. lia. Qed.

Lemma select_order_start a b : select_order E a b -> start_desc a.2 b.2.
Proof. unfold select_order, start_desc. lia. Qed.

(** The rows selected are the rows of the table, each once, by start in
    descending order. *)
Lemma order_by_start_desc_perm (rows : list status_row) :
  order_by_start_desc E rows ≡ₚ rows.
Proof.
  unfold order_by_start_desc. rewrite merge_sort_Permutation.
  rewrite snd_zip; [done |]. by rewrite length_seq.
Qed.

Lemma order_by_start_desc_sorted (rows : list status_row) :
  StronglySorted start_desc (order_by_start_desc E rows).
Proof.
  unfold order_by_start_desc.
  apply (StronglySorted_fmap snd (select_order E) start_desc).
  - intros a b. apply select_order_start.
  - apply StronglySorted_merge_sort; apply _.
Qed.

Lemma sorted_desc_reverse (rows : list status_row) :
  StronglySorted starts_before rows ->
  order_by_start_desc E rows = reverse rows.
Proof.
  intros Hsorted.
  apply (StronglySorted_unique_strong start_desc).
  - intros a b Ha Hb Hab Hba.
    apply (starts_distinct rows); [done | | |].
    + by rewrite order_by_start_desc_perm in Ha.
    + by rewrite elem_of_reverse in Hb.
    + unfold start_desc in *. lia.
  - apply order_by_start_desc_sorted.
  - by apply reverse_sorted_desc.
  - by rewrite order_by_start_desc_perm, reverse_Permutation.
Qed.

#[local] Instance row_in_range_dec tz r : Decision (row_in_range tz r).
Proof. unfold row_in_range. apply _. Defined.

Lemma history_row_ok tz r m :
  row_in_range tz r -> history_row tz r m = print (history_line tz r) m.
Proof.
  intros [Hstart Hend].
  unfold history_row, check_date_value, parse_timestamp, mbind, Cmd_bind, lift.
  by rewrite Hstart, Hend.
Qed.

Lemma history_row_raise tz r m :
  ~ row_in_range tz r -> history_row tz r m = (Raise OverflowError, m).
Proof.
  intros Hout.
  unfold history_row, check_date_value, parse_timestamp, mbind, Cmd_bind, lift.
  destruct (date_value_in_range tz (start r)) eqn:Hstart; [| done].
  destruct (date_value_in_range tz (end_ r)) eqn:Hend; [| done].
  by destruct Hout.
Qed.

(** The loop prints the lines of the rows up to the first one whose local
    times a datetime does not hold, and raises there. *)
Lemma for_each_rows tz (rows : list status_row) m :
  Forall (row_in_range tz) rows ->
  for_each rows (history_row tz) m
  = (Ok (), {| db := db m; log := log m;
               stdout := stdout m ++ (history_line tz <$> rows);
               trace := trace m |}).
Proof.
  intros Hall. revert m. induction Hall as [| r rows Hr Hall IH]; intros m.
  - cbn. rewrite app_nil_r. by destruct m.
  - cbn [for_each]. unfold mbind, Cmd_bind.
    rewrite (history_row_ok _ _ _ Hr). unfold print at 1. rewrite IH. cbn.
    by rewrite <- app_assoc.
Qed.

Lemma for_each_rows_stop tz (good : list status_row) bad rest m :
  Forall (row_in_range tz) good ->
  ~ row_in_range tz bad ->
  for_each (good ++ bad :: rest) (history_row tz) m
  = (Raise OverflowError,
     {| db := db m; log := log m;
        stdout := stdout m ++ (history_line tz <$> good);
        trace := trace m |}).
Proof.
  intros Hall Hbad. revert m. induction Hall as [| r good Hr Hall IH]; intros m.
  - cbn [app for_each]. unfold mbind, Cmd_bind.
    rewrite (history_row_raise _ _ _ Hbad). cbn. rewrite app_nil_r.
    by destruct m.
  - cbn [app for_each]. unfold mbind, Cmd_bind.
    rewrite (history_row_ok _ _ _ Hr). unfold print at 1. rewrite IH. cbn.
    by rewrite <- app_assoc.
Qed.

Lemma for_each_rows_ok tz (rows : list status_row) m m' :
  for_each rows (history_row tz) m = (Ok (), m') ->
  Forall (row_in_range tz) rows.
Proof.
  revert m. induction rows as [| r rows IH]; intros m Hrun; [constructor |].
  cbn [for_each] in Hrun. unfold mbind, Cmd_bind in Hrun.
  destruct (decide (row_in_range tz r)) as [Hr | Hr].
  - rewrite (history_row_ok _ _ _ Hr) in Hrun. unfold print at 1 in Hrun.
    constructor; [done | by eapply IH].
  - by rewrite (history_row_raise _ _ _ Hr) in Hrun.
Qed.

Lemma ensure_db_ok m m1 :
  ensure_db E m = (Ok (), m1) -> stdout m1 = stdout m.
Proof.
  intros H. apply with_connection_ok in H as (m' & m2 & Hcon & Hbody & Hcommit).
  apply attempt_ok in Hcon as ([_ _ Hout1] & _).
  apply attempt_ok in Hcommit as ([_ _ Hout3] & _).
  unfold mbind, Cmd_bind in Hbody.
  destruct (execute E CreateStatusLog m') as [[[] | e] m''] eqn:Hone;
    [| discriminate].
  apply execute_ok in Hone as ([_ _ Hout] & _).
  apply execute_ok in Hbody as ([_ _ Hout'] & _). congruence.
Qed.

Lemma print_report tz (rows : list status_row) m :
  Forall (row_in_range tz) rows ->
  match rows with
  | [] => print "No history found."
  | _ :: _ =>
      _ ← print history_header;
      _ ← print (repeat_char "-" 70);
      for_each rows (history_row tz)
  end m
  = (Ok (), {| db := db m; log := log m;
               stdout := stdout m ++ history_report tz rows;
               trace := trace m |}).
Proof.
  intros Hall. destruct rows as [| row rows]; [reflexivity |].
  unfold mbind, Cmd_bind. unfold print at 1 2. rewrite for_each_rows by done.
  cbn [db log stdout trace history_report]. by rewrite <- !app_assoc.
Qed.

Lemma print_report_ok tz (rows : list status_row) m m' :
  match rows with
  | [] => print "No history found."
  | _ :: _ =>
      _ ← print history_header;
      _ ← print (repeat_char "-" 70);
      for_each rows (history_row tz)
  end m = (Ok (), m') ->
  Forall (row_in_range tz) rows.
Proof.
  destruct rows as [| row rows]; [constructor |].
  unfold mbind, Cmd_bind. unfold print at 1 2. apply for_each_rows_ok.
Qed.

(** When nothing fails, [history] prints "No history found." for an empty
    [status_log]; otherwise the header, a rule of 70 dashes, and one line
    per stored interval, all of them, the latest start first, intervals of
    equal start in the order in which SQLite returns them.  Nothing fails
    only if the local times of all intervals are in the years 1 to 9999.
    The command changes neither the database nor the log. *)
Theorem history_prints m m1 m2 :
  ensure_db E m = (Ok (), m1) ->
  history_try E m1 = (Ok (), m2) ->
  let rows := order_by_start_desc E (status_log (db m)) in
  history E m = (Ok (), m2)
  /\ db m2 = db m
  /\ log m2 = log m
  /\ rows ≡ₚ status_log (db m)
  /\ Sorted start_desc rows
  /\ Forall (row_in_range (local_utcoffset E)) rows
  /\ stdout m2 = stdout m ++ history_report (local_utcoffset E) rows.
Proof.
  intros Hdb Hbody rows.
  pose proof (ensure_db_ok _ _ Hdb) as Hout.
  pose proof (ensure_db_frame _ _ _ Hdb) as [Hsame Hlog].
  split.
  { unfold history, mbind, Cmd_bind, try_except. by rewrite Hdb, Hbody. }
  apply with_connection_ok in Hbody as (m1' & m2' & Hcon & Hbody & Hcommit).
  apply attempt_ok in Hcon as ([_ _ Hout1] & Hdb1 & Hlog1).
  apply attempt_ok in Hcommit as ([_ _ Hout3] & Hdb3 & Hlog3).
  unfold mbind at 1, Cmd_bind at 1 in Hbody.
  destruct (execute E SelectStatusLog m1') as [[[] | e] m1''] eqn:Hsel;
    [| discriminate].
  apply execute_ok in Hsel as ([_ _ Hout2] & Hdb2 & Hlog2).
  cbn [apply_stmt] in Hdb2.
  unfold mbind at 1, Cmd_bind at 1, get_db in Hbody.
  assert (db m1'' = db m) as Hrows by congruence.
  rewrite Hrows in Hbody. fold rows in Hbody.
  pose proof (print_report_ok _ _ _ _ Hbody) as Hall.
  rewrite print_report in Hbody by done. injection Hbody as <-.
  cbn [db log stdout] in *.
  split_and!.
  - congruence.
  - congruence.
  - apply order_by_start_desc_perm.
  - apply StronglySorted_Sorted, order_by_start_desc_sorted.
  - exact Hall.
  - rewrite Hout3. congruence.
Qed.

End Commands.

(** ** Rendering *)

Section Rendering.

Lemma civil_from_days_bounds days :
  1 <= (civil_from_days days).1.2 <= 12 /\ 1 <= (civil_from_days days).2 <= 31.
Proof.
  unfold civil_from_days. cbn [fst snd].
  set (doe := (days + 719468) mod 146097).
  assert (0 <= doe < 146097) as Hdoe by (apply Z.mod_pos_bound; lia).
  set (yoe := (doe - doe / 1460 + doe / 36524 - doe / 146096) / 365).
  set (doy := doe - (365 * yoe + yoe / 4 - yoe / 100)).
  assert (0 <= doy <= 365) as Hdoy
    by (subst doy yoe; Z.div_mod_to_equations; lia).
  set (mp := (5 * doy + 2) / 153).
  assert (0 <= mp <= 11) as Hmp by (subst mp; Z.div_mod_to_equations; lia).
  split.
  - destruct (mp <? 10) eqn:Hlt; lia.
  - subst mp. Z.div_mod_to_equations. lia.
Qed.

Lemma civil_from_days_year days :
  -354285 <= days <= 2932896 -> 1000 <= (civil_from_days days).1.1 <= 9999.
Proof.
  intros Hdays. unfold civil_from_days. cbn [fst].
  set (z := days + 719468).
  set (doe := z mod 146097).
  set (era := z / 146097).
  assert (0 <= doe < 146097) as Hdoe by (apply Z.mod_pos_bound; lia).
  assert (z = 146097 * era + doe) as Hz by (subst era doe; apply Z.div_mod; lia).
  set (yoe := (doe - doe / 1460 + doe / 36524 - doe / 146096) / 365).
  set (doy := doe - (365 * yoe + yoe / 4 - yoe / 100)).
  assert (0 <= doy <= 365) as Hdoy
    by (subst doy yoe; Z.div_mod_to_equations; lia).
  set (mp := (5 * doy + 2) / 153).
  assert (0 <= mp <= 11) as Hmp by (subst mp; Z.div_mod_to_equations; lia).
  assert (2 <= era <= 24) as Hera by lia.
  destruct (mp <? 10) eqn:Hlt.
  - assert ((mp + 3 <=? 2) = false) as -> by lia.
    subst mp doy yoe. clearbody doe era. Z.div_mod_to_equations. lia.
  - assert ((mp - 9 <=? 2) = true) as -> by lia.
    subst mp doy yoe. clearbody doe era. Z.div_mod_to_equations. lia.
Qed.

(** The fields of a local time are those of a clock and a calendar. *)
Lemma astimezone_bounds tz dt :
  1 <= month (astimezone tz dt) <= 12
  /\ 1 <= day (astimezone tz dt) <= 31
  /\ 0 <= hour (astimezone tz dt) <= 23
  /\ 0 <= minute (astimezone tz dt) <= 59.
Proof.
  unfold astimezone.
  pose proof (civil_from_days_bounds ((dt + tz) / 86400)) as Hcivil.
  destruct (civil_from_days ((dt + tz) / 86400)) as [[y m] d].
  cbn [fst snd month day hour minute] in *.
  split_and!; try lia; Z.div_mod_to_equations; lia.
Qed.

Lemma astimezone_year tz dt :
  four_digit_year tz dt -> 1000 <= year (astimezone tz dt) <= 9999.
Proof.
  unfold four_digit_year, astimezone. intros Hrange.
  pose proof (civil_from_days_year ((dt + tz) / 86400)) as Hcivil.
  destruct (civil_from_days ((dt + tz) / 86400)) as [[y m] d].
  cbn [fst snd year] in *. apply Hcivil. Z.div_mod_to_equations. lia.
Qed.

(** *** Digits *)

Lemma digit_is_digit k : 0 <= k <= 9 -> Spec.is_digit (digit k) = true.
Proof.
  intros Hk.
  assert (k = 0 \/ k = 1 \/ k = 2 \/ k = 3 \/ k = 4 \/ k = 5 \/ k = 6
          \/ k = 7 \/ k = 8 \/ k = 9) as Hcases by lia.
  repeat destruct Hcases as [-> | Hcases]; try reflexivity.
  by subst.
Qed.

Lemma decimal_aux_S fuel n acc :
  decimal_aux (S fuel) n acc
  = if n <? 10 then String (digit (n mod 10)) acc
    else decimal_aux fuel (n / 10) (String (digit (n mod 10)) acc).
Proof. reflexivity. Qed.

Lemma decimal_fuel n k :
  2 ^ Z.of_nat k <= n ->
  exists fuel, S (Z.to_nat (Z.log2 n)) = (S k + fuel)%nat.
Proof.
  intros Hn. exists (Z.to_nat (Z.log2 n) - k)%nat.
  assert (Z.of_nat k <= Z.log2 n); [| lia].
  apply Z.log2_le_pow2; lia.
Qed.

Lemma decimal_two n :
  0 <= n < 100 ->
  zfill 2 (decimal n) = String (digit (n / 10)) (String (digit (n mod 10)) "").
Proof.
  intros Hn. unfold decimal. destruct (decide (n < 10)) as [Hsmall | Hbig].
  - rewrite decimal_aux_S. assert ((n <? 10) = true) as -> by lia.
    replace (n / 10) with 0 by (Z.div_mod_to_equations; lia). reflexivity.
  - destruct (decimal_fuel n 1) as [fuel ->]; [cbn; lia |].
    cbn [Nat.add]. rewrite !decimal_aux_S.
    assert ((n <? 10) = false) as -> by lia.
    assert ((n / 10 <? 10) = true) as -> by (Z.div_mod_to_equations; lia).
    replace (n / 10 mod 10) with (n / 10) by (Z.div_mod_to_equations; lia).
    reflexivity.
Qed.

Lemma decimal_four n :
  1000 <= n <= 9999 ->
  decimal n
  = String (digit (n / 1000))
      (String (digit (n / 100 mod 10))
         (String (digit (n / 10 mod 10)) (String (digit (n mod 10)) ""))).
Proof.
  intros Hn. unfold decimal.
  destruct (decimal_fuel n 3) as [fuel ->]; [cbn; lia |].
  cbn [Nat.add]. rewrite !decimal_aux_S.
  assert ((n <? 10) = false) as -> by lia.
  assert ((n / 10 <? 10) = false) as -> by (Z.div_mod_to_equations; lia).
  assert ((n / 10 / 10 <? 10) = false) as -> by (Z.div_mod_to_equations; lia).
  assert ((n / 10 / 10 / 10 <? 10) = true) as -> by (Z.div_mod_to_equations; lia).
  replace (n / 10 / 10 / 10 mod 10) with (n / 1000)
    by (Z.div_mod_to_equations; lia).
  replace (n / 10 / 10 mod 10) with (n / 100 mod 10)
    by (Z.div_mod_to_equations; lia).
  reflexivity.
Qed.

Lemma format_02_two n :
  0 <= n < 100 ->
  format_02 n = String (digit (n / 10)) (String (digit (n mod 10)) "").
Proof.
  intros Hn. unfold format_02. assert ((n <? 0) = false) as -> by lia.
  by apply decimal_two.
Qed.

(** *** Shapes *)

Lemma shaped_digit t template c s :
  Spec.is_letter t = true -> Spec.is_digit c = true ->
  Spec.shaped template s = true ->
  Spec.shaped (String t template) (String c s) = true.
Proof. intros Ht Hc Hs. cbn [Spec.shaped]. by rewrite Ht, Hc, Hs. Qed.

Lemma shaped_literal c template s :
  Spec.is_letter c = false ->
  Spec.shaped template s = true ->
  Spec.shaped (String c template) (String c s) = true.
Proof.
  intros Hc Hs. cbn [Spec.shaped]. by rewrite Hc, Hs, Ascii.eqb_refl.
Qed.

Lemma shaped_app t1 t2 s1 s2 :
  Spec.shaped t1 s1 = true -> Spec.shaped t2 s2 = true ->
  Spec.shaped (t1 +:+ t2) (s1 +:+ s2) = true.
Proof.
  revert s1. induction t1 as [| t t1 IH]; intros [| c s1] H1 H2;
    try discriminate; [done |].
  cbn [Spec.shaped append] in *.
  apply andb_true_iff in H1 as [Hhead H1].
  apply andb_true_iff. split; [exact Hhead | by apply IH].
Qed.

Ltac digits := apply digit_is_digit; Z.div_mod_to_equations; lia.

Ltac shape :=
  repeat first
    [ reflexivity
    | apply shaped_digit; [reflexivity | digits |]
    | apply shaped_literal; [reflexivity |] ].

Lemma strftime_time_shaped dt :
  0 <= hour dt <= 23 -> 0 <= minute dt <= 59 ->
  Spec.shaped "HH:MM" (strftime_time dt) = true.
Proof.
  intros Hh Hm. unfold strftime_time. rewrite !decimal_two by lia.
  cbn [append]. shape.
Qed.

Lemma strftime_date_time_shaped dt :
  1000 <= year dt <= 9999 -> 1 <= month dt <= 12 -> 1 <= day dt <= 31 ->
  0 <= hour dt <= 23 -> 0 <= minute dt <= 59 ->
  Spec.shaped "YYYY-MM-DD HH:MM" (strftime_date_time dt) = true.
Proof.
  intros Hy Hmo Hd Hh Hm. unfold strftime_date_time.
  rewrite decimal_four by lia. rewrite !decimal_two by lia.
  cbn [append]. shape.
Qed.

Lemma local_date_time_shaped tz dt :
  four_digit_year tz dt ->
  Spec.shaped "YYYY-MM-DD HH:MM" (strftime_date_time (astimezone tz dt)) = true.
Proof.
  intros Hyear. apply astimezone_year in Hyear.
  destruct (astimezone_bounds tz dt) as (? & ? & ? & ?).
  by apply strftime_date_time_shaped.
Qed.

Lemma local_time_shaped tz dt :
  Spec.shaped "HH:MM" (strftime_time (astimezone tz dt)) = true.
Proof.
  destruct (astimezone_bounds tz dt) as (? & ? & ? & ?).
  by apply strftime_time_shaped.
Qed.

Lemma duration_split seconds :
  seconds / 3600 = seconds / 60 / 60
  /\ seconds mod 3600 / 60 = (seconds / 60) mod 60.
Proof. split; Z.div_mod_to_equations; lia. Qed.

(** C8.  For every stored interval, with its start and its end taken to the
    local zone: when both fall on the same local date the range is the
    start as "%Y-%m-%d %H:%M", " - ", and the end as "%H:%M", of the shape
    "YYYY-MM-DD HH:MM - HH:MM"; otherwise the end is rendered in full too,
    "YYYY-MM-DD HH:MM - YYYY-MM-DD HH:MM" (the shapes for years of four
    digits).  The duration is end minus start, rendered as hours, a colon
    and minutes, each padded with zeros to two digits: the minutes are the
    whole minutes of the duration (seconds dropped, rounding down) beyond the
    whole hours, and the hours are all the whole hours, not reduced modulo
    24. *)
Theorem history_line_rendering (tz : Z) (r : status_row) :
  let start_local := astimezone tz (parse_timestamp (start r)) in
  let end_local := astimezone tz (parse_timestamp (end_ r)) in
  let seconds := end_ r - start r in
  let hours := seconds / 3600 in
  let minutes := seconds mod 3600 / 60 in
  (date start_local = date end_local ->
     time_range tz r
     = strftime_date_time start_local +:+ " - " +:+ strftime_time end_local
     /\ (four_digit_year tz (start r) ->
         Spec.shaped "YYYY-MM-DD HH:MM - HH:MM" (time_range tz r) = true))
  /\ (date start_local <> date end_local ->
     time_range tz r
     = strftime_date_time start_local +:+ " - " +:+ strftime_date_time end_local
     /\ (four_digit_year tz (start r) -> four_digit_year tz (end_ r) ->
         Spec.shaped "YYYY-MM-DD HH:MM - YYYY-MM-DD HH:MM" (time_range tz r)
         = true))
  /\ duration_str r = format_02 hours +:+ ":" +:+ format_02 minutes
  /\ duration_str r = Spec.duration r
  /\ 0 <= minutes <= 59
  /\ 60 * (60 * hours + minutes) <= seconds < 60 * (60 * hours + minutes) + 60
  /\ (86400 <= seconds -> 24 <= hours)
  /\ (0 <= seconds < 360000 -> Spec.shaped "HH:MM" (duration_str r) = true)
  /\ history_line tz r
     = ljust 40 (time_range tz r) +:+ " " +:+ ljust 8 (duration_str r) +:+ " "
       +:+ ljust 6 (state_str (plug_state r)) +:+ " "
       +:+ ljust 8 (state_str (device_state r)).
Proof.
  intros start_local end_local seconds hours minutes.
  assert (0 <= minutes <= 59) as Hminutes
    by (subst minutes; Z.div_mod_to_equations; lia).
  refine (conj _ (conj _ (conj _ (conj _ (conj _ (conj _ (conj _ (conj _ _)))))))).
  - intros Hsame. unfold time_range, same_day.
    rewrite bool_decide_eq_true_2 by exact Hsame. split; [done |].
    intros Hstart.
    apply (shaped_app "YYYY-MM-DD HH:MM" " - HH:MM");
      [by apply local_date_time_shaped |].
    apply (shaped_app " - " "HH:MM"); [done | apply local_time_shaped].
  - intros Hother. unfold time_range, same_day.
    rewrite bool_decide_eq_false_2 by exact Hother. split; [done |].
    intros Hstart Hend.
    apply (shaped_app "YYYY-MM-DD HH:MM" " - YYYY-MM-DD HH:MM");
      [by apply local_date_time_shaped |].
    apply (shaped_app " - " "YYYY-MM-DD HH:MM");
      [done | by apply local_date_time_shaped].
  - reflexivity.
  - unfold duration_str, Spec.duration, Spec.whole_minutes, parse_timestamp.
    destruct (duration_split (end_ r - start r)) as [-> ->]. reflexivity.
  - exact Hminutes.
  - subst hours minutes. Z.div_mod_to_equations. lia.
  - intros Hday. subst hours. Z.div_mod_to_equations. lia.
  - intros Hshort. unfold duration_str, parse_timestamp. fold seconds.
    rewrite !format_02_two
      by (subst seconds; Z.div_mod_to_equations; lia).
    cbn [append]. shape.
  - reflexivity.
Qed.

End Rendering.

(** ** The commands that only look *)

Section Looking.

Variable E : env.

Lemma fetch_plug_fetched m : fetch_plug E m = (fetched E, m).
Proof.
  unfold fetch_plug, fetched, mbind, Cmd_bind, result_bind, lift.
  by destruct (cloud_getstatus E).
Qed.

Lemma status_unfold thr m :
  status E thr m
  = match fetched E with
    | Ok plug =>
        (Ok (), {| db := db m; log := log m;
                   stdout :=
                     stdout m
                     ++ ["Plug:     "
                           +:+ state_str (evaluate_plug_state plug thr).1;
                         "Device:   "
                           +:+ state_str (evaluate_plug_state plug thr).2];
                   trace := trace m |})
    | Raise e =>
        (Ok (), {| db := db m; log := log m ++ [LogError "Error: {}" e];
                   stdout := stdout m; trace := trace m |})
    end.
Proof.
  unfold status, try_except, status_try, mbind, Cmd_bind.
  rewrite fetch_plug_fetched.
  destruct (fetched E) as [plug | e]; [| done].
  destruct (evaluate_plug_state plug thr) as [ps ds]. cbn.
  by rewrite <- app_assoc.
Qed.

(** [status] never raises and never goes near SQLite or the database.  When
    the snapshot is fetched it prints two lines, the plug state and the
    device state of the classification, and logs nothing; when the fetch or
    [from_raw] raises it prints nothing and logs the exception. *)
Theorem status_reports thr m :
  (status E thr m).1 = Ok ()
  /\ db (status E thr m).2 = db m
  /\ trace (status E thr m).2 = trace m
  /\ match fetched E with
     | Ok plug =>
         stdout (status E thr m).2
         = stdout m
           ++ ["Plug:     " +:+ state_str (evaluate_plug_state plug thr).1;
               "Device:   " +:+ state_str (evaluate_plug_state plug thr).2]
         /\ log (status E thr m).2 = log m
     | Raise e =>
         stdout (status E thr m).2 = stdout m
         /\ log (status E thr m).2 = log m ++ [LogError "Error: {}" e]
     end.
Proof.
  rewrite status_unfold. destruct (fetched E) as [plug | e]; by cbn.
Qed.

Section Info.

Variable str : Py.val -> string.
Variable format_f : nat -> Q -> string.

Lemma print_plug_lines plug m :
  print_plug str format_f plug m
  = (Ok (), {| db := db m; log := log m;
               stdout := stdout m ++ plug_lines str format_f plug;
               trace := trace m |}).
Proof.
  unfold print_plug, plug_lines, mbind, Cmd_bind, print. cbn.
  by rewrite <- !app_assoc.
Qed.

Lemma info_unfold m :
  info str format_f E m
  = match fetched E with
    | Ok plug =>
        (Ok (), {| db := db m; log := log m;
                   stdout := stdout m ++ plug_lines str format_f plug;
                   trace := trace m |})
    | Raise e =>
        (Ok (), {| db := db m; log := log m ++ [LogError "Error: {}" e];
                   stdout := stdout m; trace := trace m |})
    end.
Proof.
  unfold info, try_except, mbind, Cmd_bind.
  rewrite fetch_plug_fetched.
  destruct (fetched E) as [plug | e]; [| done].
  by rewrite print_plug_lines.
Qed.

(** [info] never raises and never goes near SQLite or the database.  When
    the snapshot is fetched it prints the eight lines of
    [TuyaSmartPlug.print], in their order, and logs nothing; when the fetch
    or [from_raw] raises it prints nothing and logs the exception. *)
Theorem info_reports m :
  (info str format_f E m).1 = Ok ()
  /\ db (info str format_f E m).2 = db m
  /\ trace (info str format_f E m).2 = trace m
  /\ match fetched E with
     | Ok plug =>
         stdout (info str format_f E m).2
         = stdout m ++ plug_lines str format_f plug
         /\ length (plug_lines str format_f plug) = 8%nat
         /\ log (info str format_f E m).2 = log m
     | Raise e =>
         stdout (info str format_f E m).2 = stdout m
         /\ log (info str format_f E m).2 = log m ++ [LogError "Error: {}" e]
     end.
Proof.
  rewrite info_unfold. destruct (fetched E) as [plug | e]; by cbn.
Qed.

End Info.

End Looking.

(** ** Runs of samples *)

Section Runs.

Variable E : env.

Lemma pair_of_new now (pair : state * state) :
  pair_of_row {| start := now; end_ := now;
                 plug_state := pair.1; device_state := pair.2 |} = pair.
Proof. by destruct pair. Qed.

Lemma step_last rows s :
  exists older r,
    step rows s = older ++ [r] /\ end_ r = ts s /\ pair_of_row r = pair_of s.
Proof.
  destruct (step_cases rows s)
    as [[_ ->] | [(older & r & _ & Hpair & ->) | (older & r & -> & _ & ->)]].
  - eexists [], _. split_and!; [done | done | apply pair_of_new].
  - by exists older, (set_end (ts s) r).
  - eexists (older ++ [r]), _. split_and!; [done | done | apply pair_of_new].
Qed.

Lemma set_end_same now (r : status_row) : end_ r = now -> set_end now r = r.
Proof. intros <-. by destruct r. Qed.

Lemma merge_last now pair rows :
  exists older r,
    merge_or_append now pair rows = older ++ [r]
    /\ end_ r = now /\ pair_of_row r = pair.
Proof.
  destruct (last rows) as [r |] eqn:Hlast.
  - apply last_Some in Hlast as [older ->].
    destruct (decide (pair = pair_of_row r)) as [Heq | Hne].
    + rewrite merge_same by done. by exists older, (set_end now r).
    + rewrite merge_other by done. eexists (older ++ [r]), _.
      split_and!; [done | done | apply pair_of_new].
  - apply last_None in Hlast as ->. eexists [], _.
    split_and!; [done | done | apply pair_of_new].
Qed.

Lemma merge_or_append_idem now pair rows :
  merge_or_append now pair (merge_or_append now pair rows)
  = merge_or_append now pair rows.
Proof.
  destruct (merge_last now pair rows) as (older & r & -> & Hend & Hpair).
  rewrite merge_same by done. by rewrite set_end_same.
Qed.

(** Running [record] again within the same second on the same snapshot adds
    an event row and leaves [status_log] as the first call made it. *)
Theorem same_instant_rerun now plug thr m m1 m2 :
  record_sample E now plug thr m = (Ok (), m1) ->
  record_sample E now plug thr m1 = (Ok (), m2) ->
  status_log (db m2) = status_log (db m1)
  /\ length (event_log (db m2)) = S (length (event_log (db m1))).
Proof.
  intros Hone Htwo.
  apply record_sample_ok in Hone as (_ & _ & _ & _ & _ & _ & Hrows1 & _).
  apply record_sample_ok in Htwo as (ev & _ & _ & _ & _ & Hevents & Hrows2 & _).
  split.
  - rewrite Hrows2, Hrows1. apply merge_or_append_idem.
  - rewrite Hevents, length_app. cbn. lia.
Qed.

(** The code compares no clocks: a sample that carries the pair of the latest
    interval and a timestamp before that interval's start still becomes its
    end, which leaves an interval that ends before it starts and that
    [history] shows with a negative count of hours. *)
Theorem late_sample_moves_end_back now plug thr m m' latest :
  last (status_log (db m)) = Some latest ->
  evaluate_plug_state plug thr = pair_of_row latest ->
  now < start latest ->
  record_sample E now plug thr m = (Ok (), m') ->
  last (status_log (db m')) = Some (set_end now latest)
  /\ length (status_log (db m')) = length (status_log (db m))
  /\ ~ proper (set_end now latest)
  /\ exists rest, duration_str (set_end now latest) = String "-" rest.
Proof.
  intros Hlast Hpair Hlate Hrun.
  apply last_Some in Hlast as [older Holder].
  apply record_sample_ok in Hrun as (_ & _ & _ & _ & _ & _ & Hrows & _).
  rewrite Holder, merge_same in Hrows by done.
  split_and!.
  - by rewrite Hrows, last_snoc.
  - by rewrite Hrows, Holder, !length_app.
  - unfold proper. cbn. lia.
  - unfold duration_str, parse_timestamp, format_02. cbn [start end_ set_end].
    assert (((now - start latest) / 3600 <? 0) = true) as ->
      by (apply Z.ltb_lt; Z.div_mod_to_equations; lia).
    by eexists.
Qed.

Lemma steps_last prefix s rows :
  exists older r,
    fold_left step (prefix ++ [s]) rows = older ++ [r]
    /\ end_ r = ts s /\ pair_of_row r = pair_of s.
Proof. rewrite fold_left_app. cbn [fold_left]. apply step_last. Qed.

(** After any run of recorded samples, whatever the store held before and
    whatever their timestamps, the latest interval ends at the timestamp of
    the last sample and carries its pair. *)
Theorem latest_interval_tracks_latest_sample prefix s m m' :
  record_all E (prefix ++ [s]) m = (Ok (), m') ->
  exists older r,
    status_log (db m') = older ++ [r]
    /\ end_ r = ts s
    /\ pair_of_row r = pair_of s.
Proof.
  intros Hrun. apply record_all_steps in Hrun. rewrite Hrun. apply steps_last.
Qed.

Lemma step_adjacent rows s : adjacent_differ rows -> adjacent_differ (step rows s).
Proof.
  intros Hrows.
  destruct (step_cases rows s)
    as [[-> ->] | [(older & r & -> & Hpair & ->) | (older & r & -> & Hpair & ->)]];
    intros i a b Ha Hb.
  - destruct i; discriminate.
  - destruct (decide (S i < length older)%nat) as [Hin | Hout].
    + rewrite lookup_app_l in Ha, Hb by lia.
      apply (Hrows i a b); by rewrite lookup_app_l by lia.
    + assert (S i = length older) as Hi.
      { apply lookup_lt_Some in Hb. rewrite length_app in Hb. cbn in Hb. lia. }
      rewrite lookup_app_l in Ha by lia.
      rewrite Hi, list_lookup_middle in Hb by done. injection Hb as <-.
      apply (Hrows i a r); [by rewrite lookup_app_l by lia |].
      by rewrite Hi, list_lookup_middle.
  - destruct (decide (S i < length (older ++ [r]))%nat) as [Hin | Hout].
    + rewrite (lookup_app_l _ _ (S i)) in Hb by lia.
      rewrite (lookup_app_l _ _ i) in Ha by lia.
      by apply (Hrows i a b).
    + assert (S i = length (older ++ [r])) as Hi.
      { apply lookup_lt_Some in Hb. rewrite !length_app in *. cbn in *. lia. }
      rewrite Hi, list_lookup_middle in Hb by done. injection Hb as <-.
      assert (i = length older) as -> by (rewrite length_app in Hi; cbn in Hi; lia).
      rewrite lookup_app_l in Ha by (rewrite length_app; cbn; lia).
      rewrite list_lookup_middle in Ha by done. injection Ha as <-.
      intros Heq. apply Hpair. rewrite Heq.
      symmetry. exact (pair_of_new (ts s) (pair_of s)).
Qed.

(** The table stays run-length encoded: when no two neighbouring intervals
    carry the same pair before a run of recorded samples (as in an empty
    table), none do after it. *)
Theorem neighbours_differ samples m m' :
  adjacent_differ (status_log (db m)) ->
  record_all E samples m = (Ok (), m') ->
  adjacent_differ (status_log (db m')).
Proof.
  intros Hrows Hrun. apply record_all_steps in Hrun. rewrite Hrun. clear Hrun.
  revert Hrows. generalize (status_log (db m)).
  induction samples as [| s rest IH]; intros rows Hrows; [done |].
  cbn [fold_left]. by apply IH, step_adjacent.
Qed.

Lemma step_covers_new t rows s :
  tidy t rows -> t < ts s -> covered (step rows s) s.
Proof.
  intros (Hproper & _ & Hended) Hlate.
  destruct (step_cases rows s)
    as [[-> ->] | [(older & r & -> & Hpair & ->) | (older & r & -> & _ & ->)]].
  - eexists. split; [apply list_elem_of_singleton; reflexivity |].
    split; [cbn; lia | apply pair_of_new].
  - exists (set_end (ts s) r). split; [apply elem_of_app; right; by left |].
    apply Forall_app in Hproper as [_ Hr]. rewrite Forall_singleton in Hr.
    apply Forall_app in Hended as [_ Hr']. rewrite Forall_singleton in Hr'.
    unfold proper in Hr. split; [cbn; lia | done].
  - eexists. split; [apply elem_of_app; right; by left |].
    split; [cbn; lia | apply pair_of_new].
Qed.

Lemma step_covers_old t rows s s0 :
  tidy t rows -> t < ts s -> covered rows s0 -> covered (step rows s) s0.
Proof.
  intros (_ & _ & Hended) Hlate (r0 & Hin & [Hspan Hpair0]).
  destruct (step_cases rows s)
    as [[-> ->] | [(older & r & -> & Hpair & ->) | (older & r & -> & _ & ->)]].
  - by apply elem_of_nil in Hin.
  - apply elem_of_app in Hin as [Hin | Hin].
    + exists r0. split; [apply elem_of_app; by left | done].
    + apply list_elem_of_singleton in Hin as ->.
      exists (set_end (ts s) r). split; [apply elem_of_app; right; by left |].
      apply Forall_app in Hended as [_ Hr]. rewrite Forall_singleton in Hr.
      split; [cbn; lia | done].
  - exists r0. split; [apply elem_of_app; by left | done].
Qed.

Lemma steps_cover samples t rows seen :
  tidy t rows -> increasing (t :: (ts <$> samples)) ->
  Forall (covered rows) seen ->
  Forall (covered (fold_left step samples rows)) (seen ++ samples).
Proof.
  revert t rows seen.
  induction samples as [| s rest IH]; intros t rows seen Htidy Hinc Hseen.
  - by rewrite app_nil_r.
  - cbn in Hinc. destruct Hinc as [Hlate Hinc]. cbn [fold_left].
    replace (seen ++ s :: rest) with ((seen ++ [s]) ++ rest)
      by by rewrite <- app_assoc.
    apply (IH (ts s)); [by eapply step_tidy | exact Hinc |].
    apply Forall_app. split.
    + eapply Forall_impl; [exact Hseen |]. intros s0.
      by apply (step_covers_old t).
    + apply Forall_singleton. by apply (step_covers_new t).
Qed.

(** No sample is lost: starting from an empty [status_log], after recording
    samples with strictly increasing timestamps, every sample falls inside
    an interval of the table that carries the sample's pair of states. *)
Theorem every_sample_is_covered samples m m' s :
  status_log (db m) = [] ->
  increasing (ts <$> samples) ->
  record_all E samples m = (Ok (), m') ->
  s ∈ samples ->
  exists r, r ∈ status_log (db m') /\ covers r s.
Proof.
  intros Hempty Hinc Hrun Hin.
  apply record_all_steps in Hrun. rewrite Hempty in Hrun. rewrite Hrun.
  assert (Forall (covered (fold_left step samples [])) ([] ++ samples)) as Hall.
  { destruct samples as [| s0 rest]; [constructor |].
    apply (steps_cover (s0 :: rest) (ts s0 - 1)); [by repeat constructor | | done].
    split; [lia | done]. }
  rewrite Forall_forall in Hall. by apply Hall.
Qed.

Lemma event_of_fields now plug ps ds ev :
  event_of E now plug ps ds = Ok ev ->
  recorded_at ev = now /\ pair_of_event ev = (ps, ds).
Proof.
  unfold event_of, mbind, result_bind.
  destruct (Py.int (int_of_str E) (power plug)); [| discriminate].
  by intros [= <-].
Qed.

(** The audit trail is complete and in order: a run of recorded samples
    appends to [event_log] one row per sample, in the order of the samples,
    each with the timestamp and the pair of states of its sample, and keeps
    every row that was there. *)
Theorem one_event_per_sample samples m m' :
  record_all E samples m = (Ok (), m') ->
  exists evs,
    event_log (db m') = event_log (db m) ++ evs
    /\ recorded_at <$> evs = ts <$> samples
    /\ pair_of_event <$> evs = pair_of <$> samples.
Proof.
  revert m. induction samples as [| s rest IH]; intros m Hrun.
  - unfold record_all, for_each, mret, Cmd_ret in Hrun. simplify_eq.
    exists []. by rewrite app_nil_r.
  - unfold record_all in Hrun. cbn [for_each] in Hrun.
    unfold mbind, Cmd_bind in Hrun.
    destruct (record_sample E (ts s) (snapshot s) (threshold s) m)
      as [[[] | e] m1] eqn:Hone; [| discriminate].
    apply record_sample_ok in Hone as (ev & _ & Hev & _ & _ & Hevents & _).
    apply event_of_fields in Hev as [Hat Hpair].
    destruct (IH _ Hrun) as (evs & Hrest & Hats & Hpairs).
    exists (ev :: evs). split_and!.
    + rewrite Hrest, Hevents, <- app_assoc. done.
    + cbn. by rewrite Hat, Hats.
    + cbn. rewrite Hpair, Hpairs. unfold pair_of.
      by rewrite <- surjective_pairing.
Qed.

End Runs.

(** ** The commands together *)

Section Together.

Variable E : env.

(** [record] stores what [status] shows: when [record] has written to the
    database, the latest interval ends at the time of the call and carries
    the two states that [status] prints for the same reply of the cloud and
    the same threshold. *)
Theorem record_stores_what_status_shows thr m :
  event_log (db (record E thr m).2) <> event_log (db m) ->
  exists r,
    last (status_log (db (record E thr m).2)) = Some r
    /\ end_ r = utc_now E
    /\ stdout (status E thr m).2
       = stdout m ++ ["Plug:     " +:+ state_str (plug_state r);
                      "Device:   " +:+ state_str (device_state r)].
Proof.
  rewrite record_unfold, status_unfold.
  destruct (ensure_db E m) as [[[] | e] m1] eqn:Hdb;
    apply ensure_db_frame in Hdb as [Hsame _];
    [| intros Hne; exfalso; apply Hne; cbn; congruence].
  destruct (record_try E thr m1) as [[[] | e] m2] eqn:Hbody; cbn [fst snd].
  - intros _. unfold record_try, mbind, Cmd_bind in Hbody.
    rewrite fetch_plug_fetched in Hbody.
    destruct (fetched E) as [plug |]; [| discriminate].
    apply record_sample_ok in Hbody as (_ & _ & _ & _ & _ & _ & Hrows & _).
    destruct (merge_last (utc_now E) (evaluate_plug_state plug thr)
                (status_log (db m1))) as (older & r & Hlast & Hend & Hpair).
    exists r. rewrite Hrows, Hlast, last_snoc. split_and!; [done | done |].
    cbn [stdout snd]. rewrite <- Hpair. done.
  - apply record_try_raise in Hbody. cbn.
    intros Hne. exfalso. apply Hne. congruence.
Qed.

Ltac step_on :=
  cbn; rewrite ?length_app; cbn [length];
  rewrite <- ?Nat.add_assoc; cbn [Nat.add].

(** [ensure_db] sets up and touches nothing else: whether it fails or not,
    the rows, the log and the terminal are as before.  It succeeds exactly
    when none of its four operations on SQLite fails (connect, the two
    CREATE TABLE IF NOT EXISTS, commit). *)
Theorem ensure_db_only_sets_up m :
  db (ensure_db E m).2 = db m
  /\ log (ensure_db E m).2 = log m
  /\ stdout (ensure_db E m).2 = stdout m
  /\ ((ensure_db E m).1 = Ok ()
      <-> calm E (length (trace m)) (length (trace m) + 4))
  /\ ((ensure_db E m).1 = Ok () ->
      trace (ensure_db E m).2
      = trace m ++ [Connect; Execute CreateStatusLog;
                    Execute CreateEventLog; Commit]).
Proof.
  assert (forall n : nat, calm E n (n + 4)
          <-> sqlite_fault E n = None /\ sqlite_fault E (n + 1) = None
              /\ sqlite_fault E (n + 2) = None /\ sqlite_fault E (n + 3) = None)
    as Hcalm.
  { intros n. split.
    - intros Hn. split_and!; apply Hn; lia.
    - intros (H0 & H1 & H2 & H3) k Hk.
      assert (k = n \/ k = (n + 1)%nat \/ k = (n + 2)%nat \/ k = (n + 3)%nat)
        as [-> | [-> | [-> | ->]]] by lia; done. }
  rewrite Hcalm.
  unfold ensure_db, with_connection, execute, attempt, mbind, Cmd_bind, lift,
    get_db, set_db.
  destruct (sqlite_fault E (length (trace m))) eqn:H0;
    [cbn; split_and!; try done; intuition congruence |].
  step_on.
  destruct (sqlite_fault E (length (trace m) + 1)) eqn:H1;
    [cbn; split_and!; try done; intuition congruence |].
  step_on.
  destruct (sqlite_fault E (length (trace m) + 2)) eqn:H2;
    [cbn; split_and!; try done; intuition congruence |].
  step_on.
  destruct (sqlite_fault E (length (trace m) + 3)) eqn:H3;
    [cbn; split_and!; try done; intuition congruence |].
  cbn. split_and!; try done. by rewrite <- !app_assoc.
Qed.

End Together.

(** ** More on payloads *)

Section Payloads.

(** Only the last value given for each of the eight codes counts: two well
    formed payloads that report success and agree on those values give the
    same result, the same snapshot or the same OverflowError, whatever the
    order of their items, the values they repeat, and the other codes they
    carry. *)
Theorem from_raw_reads_last_values raw1 raw2 items1 items2 :
  Py.truthy (Py.get raw1 "success" Py.VNone) = true ->
  Py.truthy (Py.get raw2 "success" Py.VNone) = true ->
  items_of raw1 = Some items1 ->
  items_of raw2 = Some items2 ->
  well_formed raw1 = true ->
  well_formed raw2 = true ->
  (forall k, k ∈ codes -> reported items1 k = reported items2 k) ->
  from_raw raw1 = from_raw raw2.
Proof.
  intros Hs1 Hs2 Hi1 Hi2 Hwf1 Hwf2 Hsame.
  unfold well_formed in Hwf1, Hwf2. rewrite Hi1 in Hwf1. rewrite Hi2 in Hwf2.
  repeat (apply andb_true_iff in Hwf1 as [Hwf1 ?]).
  repeat (apply andb_true_iff in Hwf2 as [Hwf2 ?]).
  rewrite (from_raw_items_ok _ _ Hs1 Hi1 Hwf1).
  rewrite (from_raw_items_ok _ _ Hs2 Hi2 Hwf2).
  unfold snapshot_of.
  rewrite !Hsame by (unfold codes; set_solver). reflexivity.
Qed.

Lemma iter_nothing raw :
  nothing_reported raw -> Py.iter (Py.get raw "result" (Py.VList [])) = Ok [].
Proof.
  unfold nothing_reported, Py.get.
  destruct (raw !! "result") as [[| | | | s | l | d] |]; cbn; try done.
  - by intros ->.
  - by intros ->.
  - intros ->. by rewrite map_to_list_empty.
Qed.

(** A payload that reports success and gives no item (no "result", or an
    empty list, and also an empty string or an empty dict, over which the
    loop does not run) makes the snapshot of the eight defaults, which is
    classified Off and Off at every threshold. *)
Theorem from_raw_defaults raw :
  Py.truthy (Py.get raw "success" Py.VNone) = true ->
  nothing_reported raw ->
  exists plug,
    from_raw raw = Ok plug
    /\ plug = {| power := Py.VBool false; countdown_1_s := Py.VInt 0;
                 energy_wh := Py.VInt 0; current_a := 0%Q;
                 voltage_v := 0%Q; power_w := 0%Q;
                 fault_code := Py.VInt 0; relay_status := Py.VStr "unknown" |}
    /\ (current_a plug == 0)%Q /\ (voltage_v plug == 0)%Q
    /\ (power_w plug == 0)%Q
    /\ forall thr, evaluate_plug_state plug thr = (Off, Off).
Proof.
  intros Hsuccess Hnothing. eexists. split.
  - unfold from_raw. rewrite Hsuccess. cbn [negb].
    by rewrite (iter_nothing _ Hnothing).
  - by split_and!.
Qed.

Lemma build_dps_app good rest dps :
  forallb item_ok good = true ->
  exists dps', build_dps (good ++ rest) dps = build_dps rest dps'.
Proof.
  revert dps. induction good as [| item good IH]; intros dps Hok.
  - by exists dps.
  - simpl in Hok. apply andb_true_iff in Hok as [Hitem Hgood].
    destruct item as [| | | | | | d]; try discriminate.
    simpl in Hitem.
    destruct (d !! "code") as [[| | | | c | |] |] eqn:Hcode; try discriminate.
    destruct (d !! "value") as [v |] eqn:Hvalue; try discriminate.
    destruct (IH (<[c := v]> dps) Hgood) as [dps' Hbuild].
    exists dps'. cbn [app build_dps Py.getitem]. rewrite Hcode, Hvalue.
    exact Hbuild.
Qed.

Lemma from_raw_items raw items :
  Py.truthy (Py.get raw "success" Py.VNone) = true ->
  raw !! "result" = Some (Py.VList items) ->
  forall e, build_dps items ∅ = Raise e -> from_raw raw = Raise e.
Proof.
  intros Hsuccess Hresult e Hbuild. unfold from_raw.
  rewrite Hsuccess. cbn [negb].
  assert (Py.get raw "result" (Py.VList []) = Py.VList items) as ->
    by (unfold Py.get; by rewrite Hresult).
  cbn [Py.iter mbind result_bind]. by rewrite Hbuild.
Qed.

(** What a payload that reports success raises on.  A "result" that is None
    or a number cannot be iterated: TypeError.  Past items that are in
    order, the first item that is not decides: an item that is not a dict
    raises TypeError, a dict without "code" raises KeyError for "code", a
    dict with a code and without "value" raises KeyError for "value". *)
Theorem from_raw_errors raw :
  Py.truthy (Py.get raw "success" Py.VNone) = true ->
  (forall v, raw !! "result" = Some v ->
     match v with
     | Py.VNone | Py.VBool _ | Py.VInt _ | Py.VFloat _ => True
     | _ => False
     end ->
     from_raw raw = Raise TypeError)
  /\ (forall good bad rest,
        raw !! "result" = Some (Py.VList (good ++ bad :: rest)) ->
        forallb item_ok good = true ->
        match bad with
        | Py.VDict d =>
            match d !! "code", d !! "value" with
            | None, _ => from_raw raw = Raise (KeyError "code")
            | Some _, None => from_raw raw = Raise (KeyError "value")
            | Some _, Some _ => True
            end
        | _ => from_raw raw = Raise TypeError
        end).
Proof.
  intros Hsuccess. split.
  - intros v Hresult Hkind. unfold from_raw. rewrite Hsuccess. cbn [negb].
    assert (Py.get raw "result" (Py.VList []) = v) as ->
      by (unfold Py.get; by rewrite Hresult).
    by destruct v.
  - intros good bad rest Hresult Hgood.
    destruct (build_dps_app good (bad :: rest) ∅ Hgood) as [dps Hbuild].
    pose proof (from_raw_items raw _ Hsuccess Hresult) as Hraise.
    rewrite Hbuild in Hraise.
    destruct bad as [| | | | | | d]; try (by apply Hraise).
    destruct (d !! "code") as [c |] eqn:Hcode.
    + destruct (d !! "value") as [v |] eqn:Hvalue; [done |].
      apply Hraise. cbn [build_dps Py.getitem]. by rewrite Hcode, Hvalue.
    + destruct (d !! "value"); apply Hraise;
        cbn [build_dps Py.getitem]; by rewrite Hcode.
Qed.

End Payloads.

(** ** The columns of the history *)

Section Columns.

Lemma length_append (a b : string) :
  String.length (a +:+ b) = (String.length a + String.length b)%nat.
Proof.
  induction a as [| c a IH]; [done |].
  simpl. by rewrite IH.
Qed.

Lemma length_repeat_char c n : String.length (repeat_char c n) = n.
Proof.
  induction n as [| n IH]; [done |].
  cbn [repeat_char String.length]. by rewrite IH.
Qed.

Lemma length_ljust width s :
  String.length (ljust width s) = (width `max` String.length s)%nat.
Proof. unfold ljust. rewrite length_append, length_repeat_char. lia. Qed.

Lemma length_zfill width s :
  String.length (zfill width s) = (width `max` String.length s)%nat.
Proof. unfold zfill. rewrite length_append, length_repeat_char. lia. Qed.

Lemma shaped_length template s :
  Spec.shaped template s = true -> String.length s = String.length template.
Proof.
  revert s. induction template as [| t template IH]; intros [| c s] H;
    try discriminate; [done |].
  cbn [Spec.shaped] in H. apply andb_true_iff in H as [_ H].
  cbn [String.length]. by rewrite (IH s).
Qed.

Lemma decimal_aux_length fuel k n acc :
  0 <= n < 10 ^ Z.of_nat (S k) ->
  (String.length (decimal_aux fuel n acc) <= S k + String.length acc)%nat.
Proof.
  revert k n acc. induction fuel as [| fuel IH]; intros k n acc Hn; [cbn; lia |].
  rewrite decimal_aux_S. destruct (n <? 10) eqn:Hsmall; [cbn; lia |].
  apply Z.ltb_ge in Hsmall.
  destruct k as [| k]; [cbn in Hn; lia |].
  etrans; [apply (IH k) |]; [| cbn; lia].
  rewrite (Nat2Z.inj_succ (S k)), Z.pow_succ_r in Hn by lia.
  Z.div_mod_to_equations. lia.
Qed.

Lemma decimal_length k n :
  0 <= n < 10 ^ Z.of_nat (S k) -> (String.length (decimal n) <= S k)%nat.
Proof.
  intros Hn. unfold decimal.
  pose proof (decimal_aux_length (S (Z.to_nat (Z.log2 n))) k n "" Hn) as H.
  cbn [String.length] in H. lia.
Qed.

Lemma length_duration_str (r : status_row) :
  0 <= end_ r - start r < 360000000 ->
  (5 <= String.length (duration_str r) <= 8)%nat.
Proof.
  intros Hspan. unfold duration_str, parse_timestamp.
  set (seconds := end_ r - start r) in *.
  rewrite !length_append.
  rewrite (format_02_two (seconds mod 3600 / 60))
    by (Z.div_mod_to_equations; lia).
  unfold format_02.
  assert ((seconds / 3600 <? 0) = false) as ->
    by (apply Z.ltb_ge; Z.div_mod_to_equations; lia).
  rewrite length_zfill.
  assert (String.length (decimal (seconds / 3600)) <= 5)%nat as Hhours.
  { apply (decimal_length 4). change (10 ^ Z.of_nat 5) with 100000.
    Z.div_mod_to_equations. lia. }
  cbn [String.length]. lia.
Qed.

Lemma length_time_range tz (r : status_row) :
  four_digit_year tz (start r) -> four_digit_year tz (end_ r) ->
  (String.length (time_range tz r) <= 40)%nat.
Proof.
  intros Hstart Hend. unfold time_range.
  pose proof (local_date_time_shaped tz _ Hstart) as H1.
  pose proof (local_date_time_shaped tz _ Hend) as H2.
  pose proof (local_time_shaped tz (end_ r)) as H3.
  apply shaped_length in H1, H2, H3. unfold parse_timestamp.
  destruct (same_day tz r); rewrite !length_append, H1, ?H2, ?H3; cbn; lia.
Qed.

(** The lines of the history stand in columns under the header: for an
    interval within the years of four digits that lasts less than 100000
    hours, the line is the range on 40 characters, the duration on 8, the
    plug state on 6 and the device state on 8, each followed by spaces up to
    its width and one space apart: 65 characters, as many as the header. *)
Theorem history_line_in_columns tz (r : status_row) :
  four_digit_year tz (start r) ->
  four_digit_year tz (end_ r) ->
  0 <= end_ r - start r < 360000000 ->
  String.length (ljust 40 (time_range tz r)) = 40%nat
  /\ String.length (ljust 8 (duration_str r)) = 8%nat
  /\ String.length (ljust 6 (state_str (plug_state r))) = 6%nat
  /\ String.length (ljust 8 (state_str (device_state r))) = 8%nat
  /\ String.length (history_line tz r) = 65%nat
  /\ String.length history_header = 65%nat.
Proof.
  intros Hstart Hend Hspan.
  pose proof (length_time_range tz r Hstart Hend) as Hrange.
  pose proof (length_duration_str r Hspan) as Hduration.
  assert (String.length (ljust 40 (time_range tz r)) = 40%nat) as H1
    by (rewrite length_ljust; lia).
  assert (String.length (ljust 8 (duration_str r)) = 8%nat) as H2
    by (rewrite length_ljust; lia).
  assert (String.length (ljust 6 (state_str (plug_state r))) = 6%nat) as H3
    by by destruct (plug_state r).
  assert (String.length (ljust 8 (state_str (device_state r))) = 8%nat) as H4
    by by destruct (device_state r).
  split_and!; try done.
  unfold history_line. rewrite !length_append, H1, H2, H3, H4. done.
Qed.

End Columns.

(** ** When a sample is recorded, and what the log says *)

Section Outcomes.

Variable E : env.

Lemma execute_runs s m :
  match s with InsertEventLog r => bind_event r | _ => Ok () end = Ok () ->
  sqlite_fault E (length (trace m)) = None ->
  exists m', execute E s m = (Ok (), m').
Proof.
  intros Hbind Hfault.
  unfold execute, mbind, Cmd_bind, lift, attempt, get_db, set_db.
  rewrite Hbind, Hfault. by eexists.
Qed.

Lemma after_length m ops m' :
  after E m ops m' -> length (trace m') = (length (trace m) + length ops)%nat.
Proof. intros [-> _ _]. by rewrite length_app. Qed.

Lemma write_sample_runs now plug ps ds ev m :
  event_of E now plug ps ds = Ok ev ->
  bind_event ev = Ok () ->
  calm E (length (trace m)) (length (trace m) + 3) ->
  exists m', write_sample E now plug ps ds m = (Ok (), m').
Proof.
  intros Hev Hbind Hcalm.
  unfold write_sample, mbind at 1, Cmd_bind at 1, lift. rewrite Hev.
  destruct (execute_runs (InsertEventLog ev) m Hbind) as [m1 Hins];
    [apply Hcalm; lia |].
  unfold mbind at 1, Cmd_bind at 1. rewrite Hins.
  apply execute_ok in Hins as (Haft1 & _ & _).
  apply after_length in Haft1. cbn [length] in Haft1.
  destruct (execute_runs SelectLastStatus m1 eq_refl) as [m2 Hsel];
    [apply Hcalm; lia |].
  unfold mbind at 1, Cmd_bind at 1. rewrite Hsel.
  apply execute_ok in Hsel as (Haft2 & _ & _).
  apply after_length in Haft2. cbn [length] in Haft2.
  unfold mbind at 1, Cmd_bind at 1, get_db.
  assert (forall w, match w with InsertEventLog r => bind_event r | _ => Ok () end
                    = Ok () ->
                    exists m3, execute E w m2 = (Ok (), m3)) as Hthird.
  { intros w Hw. apply execute_runs; [done |]. apply Hcalm. lia. }
  destruct (last_status (status_log (db m2))) as [[[rowid lp] ld] |].
  - destruct (decide ((ps, ds) = (lp, ld))).
    + destruct (Hthird (UpdateStatusEnd now rowid) eq_refl) as [m3 Hupd].
      unfold mbind, Cmd_bind. rewrite Hupd. by eexists.
    + destruct (Hthird (InsertStatusLog {| start := now; end_ := now;
                                           plug_state := ps;
                                           device_state := ds |}) eq_refl)
        as [m3 Hnew].
      unfold insert_new_state, mbind, Cmd_bind. rewrite Hnew. by eexists.
  - destruct (Hthird (InsertStatusLog {| start := now; end_ := now;
                                         plug_state := ps;
                                         device_state := ds |}) eq_refl)
      as [m3 Hnew].
    unfold insert_new_state, mbind, Cmd_bind. rewrite Hnew. by eexists.
Qed.

Lemma write_sample_message now plug ps ds m m' :
  write_sample E now plug ps ds m = (Ok (), m') ->
  log m' = log m
           ++ [LogInfo (write_message
                          (interval_write now (ps, ds) (status_log (db m))))
                 ps ds].
Proof.
  unfold write_sample, mbind at 1, Cmd_bind at 1, lift. intros H.
  destruct (event_of E now plug ps ds) as [ev |]; [| discriminate].
  unfold mbind at 1, Cmd_bind at 1 in H.
  destruct (execute E (InsertEventLog ev) m) as [[[] | e] m1] eqn:Hins;
    [| discriminate].
  apply execute_ok in Hins as (Haft1 & Hdb1 & Hlog1).
  unfold mbind at 1, Cmd_bind at 1 in H.
  destruct (execute E SelectLastStatus m1) as [[[] | e] m2] eqn:Hsel;
    [| discriminate].
  apply execute_ok in Hsel as (Haft2 & Hdb2 & Hlog2).
  unfold mbind at 1, Cmd_bind at 1, get_db in H.
  assert (status_log (db m2) = status_log (db m)) as Hrows
    by by rewrite Hdb2, Hdb1.
  unfold interval_write. rewrite Hrows in H.
  destruct (last_status (status_log (db m))) as [[[rowid lp] ld] |].
  - destruct (decide ((ps, ds) = (lp, ld))).
    + unfold mbind, Cmd_bind in H.
      destruct (execute E _ m2) as [[[] | e'] m3] eqn:Hupd; [| discriminate].
      apply execute_ok in Hupd as (Haft3 & Hdb3 & Hlog3).
      apply (logger_info_ok E) in H as (_ & Haft4 & Hdb4 & Hlog4).
      cbn [write_message]. congruence.
    + apply insert_new_state_ok in H as (Haft3 & Hdb3 & Hlog3).
      cbn [write_message]. congruence.
  - apply insert_new_state_ok in H as (Haft3 & Hdb3 & Hlog3).
    cbn [write_message]. congruence.
Qed.

Lemma connected m :
  sqlite_fault E (length (trace m)) = None ->
  exists m1,
    attempt E Connect m = (Ok (), m1)
    /\ db m1 = db m /\ log m1 = log m
    /\ length (trace m1) = S (length (trace m)).
Proof.
  intros Hfault. unfold attempt. rewrite Hfault. eexists. split; [done |].
  cbn. rewrite length_app. cbn. split_and!; [done | done | lia].
Qed.

(** A call succeeds exactly when [int(plug.power)] is defined, the eleven
    values can be bound to the placeholders of the event row, and none of
    the five operations on SQLite fails (connect, the insert of the event,
    the select, the statement on [status_log], the commit). *)
Theorem record_sample_succeeds_iff now plug thr m :
  (record_sample E now plug thr m).1 = Ok ()
  <-> (exists ev,
         event_of E now plug (evaluate_plug_state plug thr).1
                             (evaluate_plug_state plug thr).2 = Ok ev
         /\ bind_event ev = Ok ())
      /\ calm E (length (trace m)) (length (trace m) + 5).
Proof.
  split.
  - destruct (record_sample E now plug thr m) as [[[] | e] m'] eqn:Hrun;
      [intros _ | discriminate].
    apply record_sample_ok in Hrun as (ev & msg & Hev & Hbind & Hafter & _).
    split; [by exists ev |].
    pose proof (after_length _ _ _ Hafter) as Hlen. cbn [length] in Hlen.
    destruct Hafter as [_ Hcalm _]. by rewrite Hlen in Hcalm.
  - intros [(ev & Hev & Hbind) Hcalm]. unfold record_sample.
    destruct (evaluate_plug_state plug thr) as [ps ds]. cbn [fst snd] in Hev.
    unfold with_connection.
    destruct (connected m) as (m1 & -> & _ & _ & Hlen1); [apply Hcalm; lia |].
    destruct (write_sample_runs now plug ps ds ev m1 Hev Hbind) as [m2 Hbody].
    { rewrite Hlen1. intros n Hn. apply Hcalm. lia. }
    rewrite Hbody.
    apply write_sample_ok in Hbody as (ev' & msg & _ & _ & Hafter & _).
    apply after_length in Hafter. cbn [length] in Hafter.
    unfold attempt. rewrite (Hcalm (length (trace m2))) by lia. done.
Qed.

(** The log tells what was done: a successful call logs one message,
    "Updated existing state" when it has updated the end of the latest
    interval and "Logged new state" when it has inserted an interval, with
    the two states of the classification. *)
Theorem log_tells_the_write now plug thr m m' :
  record_sample E now plug thr m = (Ok (), m') ->
  log m'
  = log m
    ++ [LogInfo
          (write_message
             (interval_write now (evaluate_plug_state plug thr)
                (status_log (db m))))
          (evaluate_plug_state plug thr).1 (evaluate_plug_state plug thr).2]
  /\ (write_message
        (interval_write now (evaluate_plug_state plug thr) (status_log (db m)))
      = "Updated existing state; Plug: {}, Device: {}"
      <-> length (status_log (db m')) = length (status_log (db m))).
Proof.
  intros Hrun.
  pose proof (record_sample_ok _ _ _ _ _ _ Hrun)
    as (ev & msg & _ & _ & _ & _ & Hrows & _).
  unfold record_sample in Hrun.
  destruct (evaluate_plug_state plug thr) as [ps ds] eqn:Hpair. cbn [fst snd].
  apply with_connection_ok in Hrun as (m1 & m2 & Hcon & Hbody & Hcommit).
  apply attempt_ok in Hcon as (_ & Hdb1 & Hlog1).
  apply attempt_ok in Hcommit as (_ & _ & Hlog3).
  apply write_sample_message in Hbody. rewrite Hdb1 in Hbody.
  split; [congruence |].
  rewrite Hrows. unfold interval_write, merge_or_append.
  destruct (last_status (status_log (db m))) as [[[rowid lp] ld] |] eqn:Hlast.
  - destruct (decide ((ps, ds) = (lp, ld))); cbn [write_message].
    + split; [intros _ | done]. unfold update_end.
      destruct rowid; [done | apply length_alter].
    + rewrite length_app. cbn. split; [discriminate | lia].
  - rewrite length_app. cbn. split; [discriminate | lia].
Qed.

(** The message is logged before the commit: when everything but the commit
    succeeds, the call raises the exception of the commit and leaves the
    database as it was, and yet the log already says that the state was
    stored. *)
Theorem commit_failure_after_message now plug thr m ev e :
  event_of E now plug (evaluate_plug_state plug thr).1
                      (evaluate_plug_state plug thr).2 = Ok ev ->
  bind_event ev = Ok () ->
  calm E (length (trace m)) (length (trace m) + 4) ->
  sqlite_fault E (length (trace m) + 4) = Some e ->
  (record_sample E now plug thr m).1 = Raise e
  /\ db (record_sample E now plug thr m).2 = db m
  /\ log (record_sample E now plug thr m).2
     = log m
       ++ [LogInfo
             (write_message
                (interval_write now (evaluate_plug_state plug thr)
                   (status_log (db m))))
             (evaluate_plug_state plug thr).1 (evaluate_plug_state plug thr).2].
Proof.
  intros Hev Hbind Hcalm Hfault. unfold record_sample.
  destruct (evaluate_plug_state plug thr) as [ps ds]. cbn [fst snd] in *.
  unfold with_connection.
  destruct (connected m) as (m1 & -> & Hdb1 & Hlog1 & Hlen1);
    [apply Hcalm; lia |].
  destruct (write_sample_runs now plug ps ds ev m1 Hev Hbind) as [m2 Hbody].
  { rewrite Hlen1. intros n Hn. apply Hcalm. lia. }
  rewrite Hbody.
  pose proof (write_sample_message _ _ _ _ _ _ Hbody) as Hlog2.
  apply write_sample_ok in Hbody as (ev' & msg & _ & _ & Hafter & _).
  apply after_length in Hafter. cbn [length] in Hafter.
  unfold attempt.
  replace (length (trace m2)) with (length (trace m) + 4)%nat by lia.
  rewrite Hfault. cbn. split_and!; [done | done |]. congruence.
Qed.

(** After a run of samples with increasing timestamps from an empty table,
    the rows that [history] selects, by start in descending order, are the
    intervals in the reverse of the order in which they were created. *)
Theorem history_selects_latest_first samples m m' :
  status_log (db m) = [] ->
  increasing (ts <$> samples) ->
  record_all E samples m = (Ok (), m') ->
  order_by_start_desc E (status_log (db m')) = reverse (status_log (db m')).
Proof.
  intros Hempty Hinc Hrun.
  apply record_all_steps in Hrun. rewrite Hempty in Hrun. rewrite Hrun.
  assert (exists t, tidy t (fold_left step samples [])) as [t Htidy].
  { destruct samples as [| s rest]; [by exists 0; repeat constructor |].
    apply (steps_tidy (s :: rest) (ts s - 1)); [by repeat constructor |].
    split; [lia | done]. }
  apply tidy_starts in Htidy. by apply sorted_desc_reverse.
Qed.

Lemma execute_select m :
  sqlite_fault E (length (trace m)) = None ->
  execute E SelectStatusLog m
  = (Ok (), {| db := db m; log := log m; stdout := stdout m;
               trace := trace m ++ [Execute SelectStatusLog] |}).
Proof.
  intros Hfault.
  unfold execute, mbind, Cmd_bind, lift, attempt, get_db, set_db.
  by rewrite Hfault.
Qed.

(** [history] stops at the first interval whose local times a datetime does
    not hold: it has printed the header, the rule and the lines of the
    intervals before that one; the OverflowError of [astimezone] is logged,
    and the command ends normally. *)
Theorem history_stops_at_overflow m m1 good bad rest :
  ensure_db E m = (Ok (), m1) ->
  calm E (length (trace m1)) (length (trace m1) + 2) ->
  order_by_start_desc E (status_log (db m)) = good ++ bad :: rest ->
  Forall (row_in_range (local_utcoffset E)) good ->
  ~ row_in_range (local_utcoffset E) bad ->
  (history E m).1 = Ok ()
  /\ stdout (history E m).2
     = stdout m ++ [history_header; repeat_char "-" 70]
       ++ (history_line (local_utcoffset E) <$> good)
  /\ log (history E m).2
     = log m ++ [LogError "Failed to load history: {}" OverflowError]
  /\ db (history E m).2 = db m.
Proof.
  intros Hdb Hcalm Hrows Hgood Hbad.
  pose proof (ensure_db_ok _ _ _ Hdb) as Hout.
  pose proof (ensure_db_frame _ _ _ _ Hdb) as [Hsame Hlog].
  assert (history_try E m1
          = (Raise OverflowError,
             {| db := db m1; log := log m1;
                stdout := stdout m1 ++ [history_header; repeat_char "-" 70]
                          ++ (history_line (local_utcoffset E) <$> good);
                trace := trace m1 ++ [Connect; Execute SelectStatusLog;
                                      Rollback] |})) as Hbody.
  { unfold history_try, with_connection, attempt.
    rewrite (Hcalm (length (trace m1))) by lia.
    unfold mbind at 1, Cmd_bind at 1.
    rewrite execute_select
      by (cbn [trace]; rewrite length_app; apply Hcalm; cbn [length]; lia).
    unfold mbind at 1, Cmd_bind at 1, get_db.
    cbn [db log stdout trace]. rewrite Hsame, Hrows.
    assert (forall (A : Type) (a b : A),
              match good ++ bad :: rest with [] => a | _ :: _ => b end = b)
      as -> by (intros; by destruct good).
    unfold mbind, Cmd_bind. unfold print at 1 2.
    rewrite for_each_rows_stop by done.
    cbn [db log stdout trace]. by rewrite <- !app_assoc. }
  unfold history, mbind, Cmd_bind, try_except. rewrite Hdb, Hbody.
  cbn [logger_error fst snd db log stdout trace].
  by rewrite Hout, Hlog, Hsame.
Qed.

End Outcomes.

(** ** At concrete inputs *)

Lemma record_sample_atomic_witness :
  sqlite_fault locked (length (trace (ensure_db locked fresh).2))
  = Some (DatabaseError "database is locked")
  /\ (record_sample locked 1709200800 plug_150W 5 (ensure_db locked fresh).2).1
     = Raise (DatabaseError "database is locked")
  /\ db (record_sample locked 1709200800 plug_150W 5
           (ensure_db locked fresh).2).2 = db fresh.
Proof.
  assert (sqlite_fault locked (length (trace (ensure_db locked fresh).2))
          = Some (DatabaseError "database is locked")) as Hfault
    by (vm_compute; reflexivity).
  pose proof (record_sample_atomic locked 1709200800 plug_150W 5
                (ensure_db locked fresh).2) as (Hfails & _ & Hsame & _).
  split; [exact Hfault |]. split; [exact (Hfails _ Hfault) |].
  rewrite Hsame; [reflexivity |]. eexists. exact (Hfails _ Hfault).
Defined.

Lemma record_sample_writes_once_witness :
  record_sample calm_env 1709200800 plug_150W 5 fresh
  = (Ok (), (record_sample calm_env 1709200800 plug_150W 5 fresh).2)
  /\ count is_event_insert
       (ops_since fresh (record_sample calm_env 1709200800 plug_150W 5 fresh).2)
     = 1%nat
  /\ (count is_status_insert
        (ops_since fresh (record_sample calm_env 1709200800 plug_150W 5 fresh).2)
      + count is_status_update
          (ops_since fresh (record_sample calm_env 1709200800 plug_150W 5 fresh).2)
      = 1)%nat.
Proof.
  assert (record_sample calm_env 1709200800 plug_150W 5 fresh
          = (Ok (), (record_sample calm_env 1709200800 plug_150W 5 fresh).2))
    as Hrun by (vm_compute; reflexivity).
  split; [exact Hrun |].
  exact (proj2 (proj2 (record_sample_writes_once calm_env 1709200800 plug_150W
                         5 fresh _ Hrun))).
Defined.

Lemma same_pair_extends_latest_witness :
  last (status_log (db one_interval)) = Some running
  /\ end_ running < 1709200920
  /\ evaluate_plug_state plug_150W 5 = (On, On)
  /\ record_sample calm_env 1709200920 plug_150W 5 one_interval
     = (Ok (), (record_sample calm_env 1709200920 plug_150W 5 one_interval).2)
  /\ length (status_log
               (db (record_sample calm_env 1709200920 plug_150W 5 one_interval).2))
     = length (status_log (db one_interval)).
Proof.
  assert (last (status_log (db one_interval)) = Some running) as Hlast
    by reflexivity.
  assert (end_ running < 1709200920) as Hlate by (cbn; lia).
  assert (evaluate_plug_state plug_150W 5 = (On, On)) as Hpair
    by (vm_compute; reflexivity).
  assert (record_sample calm_env 1709200920 plug_150W 5 one_interval
          = (Ok (), (record_sample calm_env 1709200920 plug_150W 5 one_interval).2))
    as Hrun by (vm_compute; reflexivity).
  split_and!; [exact Hlast | exact Hlate | exact Hpair | exact Hrun |].
  exact (proj1 (proj2 (same_pair_extends_latest calm_env
                         1709200800 1709200860 1709200920 (On, On)
                         plug_150W 5 one_interval _ Hlast Hlate Hpair Hrun))).
Defined.

Lemma other_pair_starts_interval_witness :
  last (status_log (db one_interval)) = Some running
  /\ evaluate_plug_state plug_off 5 = (Off, Off)
  /\ (Off, Off) <> (On, On)
  /\ record_sample calm_env 1709200920 plug_off 5 one_interval
     = (Ok (), (record_sample calm_env 1709200920 plug_off 5 one_interval).2)
  /\ status_log (db (record_sample calm_env 1709200920 plug_off 5 one_interval).2)
     = status_log (db one_interval)
       ++ [{| start := 1709200920; end_ := 1709200920;
              plug_state := Off; device_state := Off |}].
Proof.
  assert (last (status_log (db one_interval)) = Some running) as Hlast
    by reflexivity.
  assert (evaluate_plug_state plug_off 5 = (Off, Off)) as Hpair
    by (vm_compute; reflexivity).
  assert ((Off, Off) <> (On, On)) as Hne by discriminate.
  assert (record_sample calm_env 1709200920 plug_off 5 one_interval
          = (Ok (), (record_sample calm_env 1709200920 plug_off 5 one_interval).2))
    as Hrun by (vm_compute; reflexivity).
  split_and!; [exact Hlast | exact Hpair | exact Hne | exact Hrun |].
  exact (proj1 (other_pair_starts_interval calm_env
                  1709200800 1709200860 1709200920 (On, On) (Off, Off)
                  plug_off 5 one_interval _ Hlast Hpair Hne Hrun)).
Defined.

Lemma intervals_follow_transitions_witness :
  status_log (db fresh) = []
  /\ increasing (ts <$> scenario)
  /\ record_all calm_env scenario fresh
     = (Ok (), (record_all calm_env scenario fresh).2)
  /\ length (status_log (db (record_all calm_env scenario fresh).2))
     = S (Spec.transitions (pair_of <$> scenario)).
Proof.
  assert (status_log (db fresh) = []) as Hempty by reflexivity.
  assert (increasing (ts <$> scenario)) as Hinc by (cbn; lia).
  assert (record_all calm_env scenario fresh
          = (Ok (), (record_all calm_env scenario fresh).2))
    as Hrun by (vm_compute; reflexivity).
  split_and!; [exact Hempty | exact Hinc | exact Hrun |].
  pose proof (intervals_follow_transitions calm_env scenario fresh _
                Hempty Hinc Hrun) as (_ & _ & _ & Hcount & _).
  apply Hcount. discriminate.
Defined.

(** C1, as stated, fails on the empty sequence: nothing is recorded, no
    interval exists, and the number of transitions plus one is one. *)
Lemma no_sample_no_interval :
  status_log (db fresh) = []
  /\ increasing (ts <$> [])
  /\ record_all calm_env [] fresh = (Ok (), fresh)
  /\ length (status_log (db fresh)) <> (Spec.transitions (pair_of <$> []) + 1)%nat.
Proof. split_and!; [reflexivity | exact I | reflexivity | discriminate]. Qed.

(** The scenario of the specification: 150 W at 10:00 and 10:01, off at 10:02. *)
Example scenario_intervals :
  status_log (db (record_all calm_env scenario fresh).2)
  = [{| start := 1709200800; end_ := 1709200860;
        plug_state := On; device_state := On |};
     {| start := 1709200920; end_ := 1709200920;
        plug_state := Off; device_state := Off |}].
Proof. vm_compute. reflexivity. Qed.

Lemma commands_catch_errors_witness :
  ensure_db unreachable fresh = (Ok (), (ensure_db unreachable fresh).2)
  /\ cloud_getstatus unreachable = Raise (ExternalError "Connection timed out")
  /\ record unreachable 5 fresh
     = (Ok (), {| db := db fresh;
                  log := log (ensure_db unreachable fresh).2
                         ++ [LogError "Failed to record state: {}"
                               (ExternalError "Connection timed out")];
                  stdout := stdout (ensure_db unreachable fresh).2;
                  trace := trace (ensure_db unreachable fresh).2 |}).
Proof.
  assert (ensure_db unreachable fresh = (Ok (), (ensure_db unreachable fresh).2))
    as Hdb by (vm_compute; reflexivity).
  assert (cloud_getstatus unreachable = Raise (ExternalError "Connection timed out"))
    as Hcloud by reflexivity.
  split_and!; [exact Hdb | exact Hcloud |].
  pose proof (commands_catch_errors unreachable 5 fresh) as (_ & _ & Htry).
  destruct (Htry _ Hdb) as (Hfetch & _ & _ & Hrecord & _).
  exact (Hrecord _ _ (Hfetch _ Hcloud)).
Defined.

(** C3, as stated, fails: the cloud cannot be reached, the fetch raises, and
    [record] returns normally, the exception kept in the log. *)
Lemma record_swallows_fetch_failure :
  cloud_getstatus unreachable = Raise (ExternalError "Connection timed out")
  /\ (record unreachable 5 fresh).1 = Ok ()
  /\ log (record unreachable 5 fresh).2
     = [LogError "Failed to record state: {}" (ExternalError "Connection timed out")].
Proof. split_and!; vm_compute; reflexivity. Qed.

(** The same for [history] when SQLite refuses the connection. *)
Example history_swallows_database_failure :
  (history locked fresh).1 = Ok ()
  /\ log (history locked fresh).2
     = [LogError "Failed to load history: {}" (DatabaseError "database is locked")]
  /\ stdout (history locked fresh).2 = [].
Proof. split_and!; vm_compute; reflexivity. Qed.

Lemma history_line_rendering_witness :
  date (astimezone 7200 (start running)) = date (astimezone 7200 (end_ running))
  /\ four_digit_year 7200 (start running)
  /\ time_range 7200 running = "2024-02-29 12:00 - 12:01"
  /\ Spec.shaped "YYYY-MM-DD HH:MM - HH:MM" (time_range 7200 running) = true.
Proof.
  assert (date (astimezone 7200 (start running))
          = date (astimezone 7200 (end_ running))) as Hsame
    by (vm_compute; reflexivity).
  assert (four_digit_year 7200 (start running)) as Hyear
    by (unfold four_digit_year; cbn; lia).
  destruct (history_line_rendering 7200 running) as (Hrange & _).
  destruct (Hrange Hsame) as [Htext Hshape].
  split_and!; [exact Hsame | exact Hyear | | exact (Hshape Hyear)].
  rewrite Htext. vm_compute. reflexivity.
Defined.

(** A day and some hours: the hours go past 24, the seconds are dropped. *)
Example duration_past_a_day :
  duration_str {| start := 1709200800; end_ := 1709200800 + 100799;
                  plug_state := On; device_state := Off |} = "27:59".
Proof. vm_compute. reflexivity. Qed.

(** Two intervals of one day and one that crosses midnight, most recent
    first, as [history] prints them with the zone two hours east of UTC. *)
Example history_lines :
  history_line 7200 {| start := 1709200800; end_ := 1709250000;
                       plug_state := On; device_state := Off |}
  = "2024-02-29 12:00 - 2024-03-01 01:40      13:40    On     Off     "
  /\ history_line 7200 running
    = "2024-02-29 12:00 - 12:01                 00:01    On     On      ".
Proof. split; vm_compute; reflexivity. Qed.

Lemma earlier_intervals_immutable_witness :
  record_sample calm_env 1709200980 plug_150W 5 (record_all calm_env scenario fresh).2
  = (Ok (), (record_sample calm_env 1709200980 plug_150W 5
               (record_all calm_env scenario fresh).2).2)
  /\ status_log (db (record_all calm_env scenario fresh).2) !! 0%nat = Some running
  /\ (1 < length (status_log (db (record_all calm_env scenario fresh).2)))%nat
  /\ status_log (db (record_sample calm_env 1709200980 plug_150W 5
                       (record_all calm_env scenario fresh).2).2) !! 0%nat
     = Some running.
Proof.
  assert (record_sample calm_env 1709200980 plug_150W 5
            (record_all calm_env scenario fresh).2
          = (Ok (), (record_sample calm_env 1709200980 plug_150W 5
                       (record_all calm_env scenario fresh).2).2))
    as Hrun by (vm_compute; reflexivity).
  assert (status_log (db (record_all calm_env scenario fresh).2) !! 0%nat
          = Some running) as Hrow by (vm_compute; reflexivity).
  assert (1 < length (status_log (db (record_all calm_env scenario fresh).2)))%nat
    as Hearlier by (vm_compute; lia).
  split_and!; [exact Hrun | exact Hrow | exact Hearlier |].
  exact (earlier_intervals_immutable calm_env _ _ _ _ _ 0%nat running
           Hrun Hrow Hearlier).
Defined.

Lemma event_row_recorded_witness :
  record_sample calm_env 1709200800 plug_150W 5 fresh
  = (Ok (), (record_sample calm_env 1709200800 plug_150W 5 fresh).2)
  /\ exists ev,
       event_log (db (record_sample calm_env 1709200800 plug_150W 5 fresh).2) = [ev]
       /\ recorded_at ev = 1709200800
       /\ plug_power ev = 1.
Proof.
  assert (record_sample calm_env 1709200800 plug_150W 5 fresh
          = (Ok (), (record_sample calm_env 1709200800 plug_150W 5 fresh).2))
    as Hrun by (vm_compute; reflexivity).
  split; [exact Hrun |].
  destruct (event_row_recorded calm_env _ _ _ _ _ Hrun)
    as (ev & Hevents & Hat & _ & Hpower & _).
  exists ev. split_and!; [exact Hevents | exact Hat |].
  cbn in Hpower. congruence.
Defined.

Lemma history_prints_witness :
  ensure_db calm_env one_interval = (Ok (), (ensure_db calm_env one_interval).2)
  /\ history_try calm_env (ensure_db calm_env one_interval).2
     = (Ok (), (history calm_env one_interval).2)
  /\ stdout (history calm_env one_interval).2
     = [history_header; repeat_char "-" 70; history_line 0 running].
Proof.
  assert (ensure_db calm_env one_interval
          = (Ok (), (ensure_db calm_env one_interval).2)) as Hdb
    by (vm_compute; reflexivity).
  assert (history_try calm_env (ensure_db calm_env one_interval).2
          = (Ok (), (history calm_env one_interval).2)) as Hbody
    by (vm_compute; reflexivity).
  split_and!; [exact Hdb | exact Hbody |].
  destruct (history_prints calm_env _ _ _ Hdb Hbody)
    as (_ & _ & _ & _ & _ & _ & Hout).
  rewrite Hout. vm_compute. reflexivity.
Defined.

(** With nothing recorded, [history] reports that and fails nowhere. *)
Example history_of_nothing :
  (history calm_env fresh).1 = Ok ()
  /\ stdout (history calm_env fresh).2 = ["No history found."]
  /\ log (history calm_env fresh).2 = [].
Proof. split_and!; vm_compute; reflexivity. Qed.

Lemma raising_threshold_never_turns_on_witness :
  (5 <= 200)%Q
  /\ (evaluate_plug_state plug_150W 200).1 = (evaluate_plug_state plug_150W 5).1
  /\ (evaluate_plug_state plug_150W 5).2 = On.
Proof.
  assert (5 <= 200)%Q as Hle by discriminate.
  destruct (raising_threshold_never_turns_on plug_150W 5 200 Hle) as [Hplug _].
  split_and!; [exact Hle | exact Hplug | reflexivity].
Defined.

Lemma same_instant_rerun_witness :
  record_sample calm_env 1709200800 plug_150W 5 fresh
  = (Ok (), (record_sample calm_env 1709200800 plug_150W 5 fresh).2)
  /\ record_sample calm_env 1709200800 plug_150W 5
       (record_sample calm_env 1709200800 plug_150W 5 fresh).2
     = (Ok (), (record_sample calm_env 1709200800 plug_150W 5
                  (record_sample calm_env 1709200800 plug_150W 5 fresh).2).2)
  /\ status_log
       (db (record_sample calm_env 1709200800 plug_150W 5
              (record_sample calm_env 1709200800 plug_150W 5 fresh).2).2)
     = status_log (db (record_sample calm_env 1709200800 plug_150W 5 fresh).2).
Proof.
  assert (record_sample calm_env 1709200800 plug_150W 5 fresh
          = (Ok (), (record_sample calm_env 1709200800 plug_150W 5 fresh).2))
    as Hone by (vm_compute; reflexivity).
  assert (record_sample calm_env 1709200800 plug_150W 5
            (record_sample calm_env 1709200800 plug_150W 5 fresh).2
          = (Ok (), (record_sample calm_env 1709200800 plug_150W 5
                       (record_sample calm_env 1709200800 plug_150W 5 fresh).2).2))
    as Htwo by (vm_compute; reflexivity).
  split_and!; [exact Hone | exact Htwo |].
  exact (proj1 (same_instant_rerun calm_env _ _ _ _ _ _ Hone Htwo)).
Defined.

Lemma late_sample_moves_end_back_witness :
  last (status_log (db one_interval)) = Some running
  /\ evaluate_plug_state plug_150W 5 = pair_of_row running
  /\ 1709200700 < start running
  /\ record_sample calm_env 1709200700 plug_150W 5 one_interval
     = (Ok (), (record_sample calm_env 1709200700 plug_150W 5 one_interval).2)
  /\ last (status_log
             (db (record_sample calm_env 1709200700 plug_150W 5 one_interval).2))
     = Some (set_end 1709200700 running)
  /\ ~ proper (set_end 1709200700 running).
Proof.
  assert (last (status_log (db one_interval)) = Some running) as Hlast
    by reflexivity.
  assert (evaluate_plug_state plug_150W 5 = pair_of_row running) as Hpair
    by (vm_compute; reflexivity).
  assert (1709200700 < start running) as Hlate by (cbn; lia).
  assert (record_sample calm_env 1709200700 plug_150W 5 one_interval
          = (Ok (), (record_sample calm_env 1709200700 plug_150W 5
                       one_interval).2))
    as Hrun by (vm_compute; reflexivity).
  destruct (late_sample_moves_end_back calm_env _ _ _ _ _ _
              Hlast Hpair Hlate Hrun) as (Hend & _ & Himproper & _).
  by split_and!.
Defined.

Lemma latest_interval_tracks_latest_sample_witness :
  record_all calm_env (removelast scenario ++ [{| ts := 1709200920;
                                                  snapshot := plug_off;
                                                  threshold := 5 |}]) fresh
  = (Ok (), (record_all calm_env scenario fresh).2)
  /\ exists older r,
       status_log (db (record_all calm_env scenario fresh).2) = older ++ [r]
       /\ end_ r = 1709200920
       /\ pair_of_row r = (Off, Off).
Proof.
  assert (record_all calm_env
            (removelast scenario ++ [{| ts := 1709200920; snapshot := plug_off;
                                        threshold := 5 |}]) fresh
          = (Ok (), (record_all calm_env scenario fresh).2))
    as Hrun by (vm_compute; reflexivity).
  split; [exact Hrun |].
  exact (latest_interval_tracks_latest_sample calm_env _ _ _ _ Hrun).
Defined.

Lemma neighbours_differ_witness :
  adjacent_differ (status_log (db fresh))
  /\ record_all calm_env scenario fresh
     = (Ok (), (record_all calm_env scenario fresh).2)
  /\ adjacent_differ (status_log (db (record_all calm_env scenario fresh).2)).
Proof.
  assert (adjacent_differ (status_log (db fresh))) as Hempty
    by (intros i a b Ha; discriminate Ha).
  assert (record_all calm_env scenario fresh
          = (Ok (), (record_all calm_env scenario fresh).2))
    as Hrun by (vm_compute; reflexivity).
  split_and!; [exact Hempty | exact Hrun |].
  exact (neighbours_differ calm_env _ _ _ Hempty Hrun).
Defined.

Lemma every_sample_is_covered_witness :
  status_log (db fresh) = []
  /\ increasing (ts <$> scenario)
  /\ record_all calm_env scenario fresh
     = (Ok (), (record_all calm_env scenario fresh).2)
  /\ {| ts := 1709200860; snapshot := plug_150W; threshold := 5 |} ∈ scenario
  /\ exists r,
       r ∈ status_log (db (record_all calm_env scenario fresh).2)
       /\ covers r {| ts := 1709200860; snapshot := plug_150W; threshold := 5 |}.
Proof.
  assert (status_log (db fresh) = []) as Hempty by reflexivity.
  assert (increasing (ts <$> scenario)) as Hinc by (cbn; lia).
  assert (record_all calm_env scenario fresh
          = (Ok (), (record_all calm_env scenario fresh).2))
    as Hrun by (vm_compute; reflexivity).
  assert ({| ts := 1709200860; snapshot := plug_150W; threshold := 5 |}
          ∈ scenario) as Hin
    by (unfold scenario; apply elem_of_cons; right; apply elem_of_cons; by left).
  split_and!; [exact Hempty | exact Hinc | exact Hrun | exact Hin |].
  exact (every_sample_is_covered calm_env _ _ _ _ Hempty Hinc Hrun Hin).
Defined.

Lemma one_event_per_sample_witness :
  record_all calm_env scenario fresh
  = (Ok (), (record_all calm_env scenario fresh).2)
  /\ exists evs,
       event_log (db (record_all calm_env scenario fresh).2)
       = event_log (db fresh) ++ evs
       /\ recorded_at <$> evs = ts <$> scenario
       /\ pair_of_event <$> evs = pair_of <$> scenario.
Proof.
  assert (record_all calm_env scenario fresh
          = (Ok (), (record_all calm_env scenario fresh).2))
    as Hrun by (vm_compute; reflexivity).
  split; [exact Hrun |].
  exact (one_event_per_sample calm_env _ _ _ Hrun).
Defined.

Lemma record_stores_what_status_shows_witness :
  event_log (db (record answering 5 fresh).2) <> event_log (db fresh)
  /\ exists r,
       last (status_log (db (record answering 5 fresh).2)) = Some r
       /\ end_ r = 1709200800
       /\ stdout (status answering 5 fresh).2
          = ["Plug:     " +:+ state_str (plug_state r);
             "Device:   " +:+ state_str (device_state r)].
Proof.
  assert (event_log (db (record answering 5 fresh).2) <> event_log (db fresh))
    as Hwritten by (vm_compute; discriminate).
  split; [exact Hwritten |].
  exact (record_stores_what_status_shows answering 5 fresh Hwritten).
Defined.

Lemma from_raw_reads_last_values_witness :
  Py.truthy (Py.get (payload true 1500) "success" Py.VNone) = true
  /\ Py.truthy (Py.get shuffled "success" Py.VNone) = true
  /\ well_formed (payload true 1500) = true
  /\ well_formed shuffled = true
  /\ from_raw (payload true 1500) = from_raw shuffled.
Proof.
  assert (Py.truthy (Py.get (payload true 1500) "success" Py.VNone) = true)
    as Hs1 by (vm_compute; reflexivity).
  assert (Py.truthy (Py.get shuffled "success" Py.VNone) = true)
    as Hs2 by (vm_compute; reflexivity).
  assert (well_formed (payload true 1500) = true) as Hwf1
    by (vm_compute; reflexivity).
  assert (well_formed shuffled = true) as Hwf2 by (vm_compute; reflexivity).
  assert (items_of (payload true 1500)
          = Some [dp "switch_1" (Py.VBool true); dp "cur_power" (Py.VInt 1500)])
    as Hi1 by (vm_compute; reflexivity).
  assert (items_of shuffled
          = Some [dp "cur_power" (Py.VInt 7);
                  dp "temperature" (Py.VFloat (215 # 10));
                  dp "cur_power" (Py.VInt 1500);
                  dp "switch_1" (Py.VBool true)])
    as Hi2 by (vm_compute; reflexivity).
  split_and!; [exact Hs1 | exact Hs2 | exact Hwf1 | exact Hwf2 |].
  apply (from_raw_reads_last_values _ _ _ _ Hs1 Hs2 Hi1 Hi2 Hwf1 Hwf2).
  intros k Hk. unfold codes in Hk.
  repeat (apply elem_of_cons in Hk as [-> | Hk]; [vm_compute; reflexivity |]).
  by apply elem_of_nil in Hk.
Defined.

Lemma from_raw_defaults_witness :
  Py.truthy (Py.get (<["success" := Py.VStr "yes"]> ∅) "success" Py.VNone) = true
  /\ nothing_reported (<["success" := Py.VStr "yes"]> ∅)
  /\ exists plug,
       from_raw (<["success" := Py.VStr "yes"]> ∅) = Ok plug
       /\ power plug = Py.VBool false.
Proof.
  assert (Py.truthy (Py.get (<["success" := Py.VStr "yes"]> ∅) "success"
                       Py.VNone) = true) as Hsuccess
    by (vm_compute; reflexivity).
  assert (nothing_reported (<["success" := Py.VStr "yes"]> ∅)) as Hnothing
    by (vm_compute; exact I).
  split_and!; [exact Hsuccess | exact Hnothing |].
  destruct (from_raw_defaults _ Hsuccess Hnothing) as (plug & Hplug & -> & _).
  eexists. split; [exact Hplug | reflexivity].
Defined.

Lemma from_raw_errors_witness :
  Py.truthy (Py.get truncated "success" Py.VNone) = true
  /\ from_raw truncated = Raise (KeyError "value").
Proof.
  assert (Py.truthy (Py.get truncated "success" Py.VNone) = true) as Hsuccess
    by (vm_compute; reflexivity).
  split; [exact Hsuccess |].
  destruct (from_raw_errors truncated Hsuccess) as [_ Hitem].
  assert (truncated !! "result"
          = Some (Py.VList ([dp "switch_1" (Py.VBool true)]
                            ++ Py.VDict (<["code" := Py.VStr "cur_power"]> ∅)
                               :: []))) as Hresult
    by (vm_compute; reflexivity).
  assert (forallb item_ok [dp "switch_1" (Py.VBool true)] = true) as Hgood
    by (vm_compute; reflexivity).
  pose proof (Hitem _ _ _ Hresult Hgood) as Hraise.
  cbn match in Hraise.
  assert ((<["code" := Py.VStr "cur_power"]> (∅ : gmap string Py.val)) !! "code"
          = Some (Py.VStr "cur_power")) as Hcode by (vm_compute; reflexivity).
  assert ((<["code" := Py.VStr "cur_power"]> (∅ : gmap string Py.val)) !! "value"
          = None) as Hvalue by (vm_compute; reflexivity).
  rewrite Hcode, Hvalue in Hraise. exact Hraise.
Defined.

Lemma history_line_in_columns_witness :
  four_digit_year 7200 (start long_run)
  /\ four_digit_year 7200 (end_ long_run)
  /\ 0 <= end_ long_run - start long_run < 360000000
  /\ String.length (history_line 7200 long_run) = 65%nat
  /\ history_line 7200 long_run
     = "2024-02-29 12:00 - 2024-03-01 18:00      30:00    On     Off     ".
Proof.
  assert (four_digit_year 7200 (start long_run)) as Hstart
    by (unfold four_digit_year; cbn; lia).
  assert (four_digit_year 7200 (end_ long_run)) as Hend
    by (unfold four_digit_year; cbn; lia).
  assert (0 <= end_ long_run - start long_run < 360000000) as Hspan
    by (cbn; lia).
  destruct (history_line_in_columns 7200 long_run Hstart Hend Hspan)
    as (_ & _ & _ & _ & Hline & _).
  refine (conj Hstart (conj Hend (conj Hspan (conj Hline _)))).
  vm_compute. reflexivity.
Defined.

Lemma log_tells_the_write_witness :
  log (record_sample calm_env 1709200860 plug_150W 5 one_interval).2
  = [LogInfo "Updated existing state; Plug: {}, Device: {}" On On]
  /\ length (status_log
               (db (record_sample calm_env 1709200860 plug_150W 5
                      one_interval).2))
     = 1%nat.
Proof.
  assert (record_sample calm_env 1709200860 plug_150W 5 one_interval
          = (Ok (), (record_sample calm_env 1709200860 plug_150W 5
                       one_interval).2))
    as Hrun by (vm_compute; reflexivity).
  destruct (log_tells_the_write calm_env _ _ _ _ _ Hrun) as [Hlog Hsame].
  split; [exact Hlog |].
  apply Hsame. reflexivity.
Defined.

(** With [locked] on a fresh machine the operation that fails is the fifth
    of the call, its commit. *)
Lemma commit_failure_after_message_witness :
  (record_sample locked 1709200800 plug_150W 5 fresh).1
  = Raise (DatabaseError "database is locked")
  /\ db (record_sample locked 1709200800 plug_150W 5 fresh).2 = db fresh
  /\ log (record_sample locked 1709200800 plug_150W 5 fresh).2
     = [LogInfo "Logged new state; Plug: {}, Device: {}" On On].
Proof.
  eapply (commit_failure_after_message locked 1709200800 plug_150W 5 fresh).
  - vm_compute. reflexivity.
  - vm_compute. reflexivity.
  - intros n Hn. cbn in Hn.
    destruct n as [| [| [| [| n]]]]; [reflexivity .. | lia].
  - reflexivity.
Defined.

Lemma history_selects_latest_first_witness :
  order_by_start_desc calm_env
    (status_log (db (record_all calm_env scenario fresh).2))
  = reverse (status_log (db (record_all calm_env scenario fresh).2))
  /\ start <$> order_by_start_desc calm_env
                 (status_log (db (record_all calm_env scenario fresh).2))
     = [1709200920; 1709200800].
Proof.
  assert (record_all calm_env scenario fresh
          = (Ok (), (record_all calm_env scenario fresh).2))
    as Hrun by (vm_compute; reflexivity).
  assert (increasing (ts <$> scenario)) as Hinc by (cbn; lia).
  split.
  - exact (history_selects_latest_first calm_env scenario fresh _ eq_refl
             Hinc Hrun).
  - vm_compute. reflexivity.
Defined.

Lemma history_stops_at_overflow_witness :
  (history west old_table).1 = Ok ()
  /\ stdout (history west old_table).2
     = [history_header; repeat_char "-" 70; history_line (-3600) running]
  /\ log (history west old_table).2
     = [LogError "Failed to load history: {}" OverflowError].
Proof.
  assert (ensure_db west old_table = (Ok (), (ensure_db west old_table).2))
    as Hdb by (vm_compute; reflexivity).
  assert (order_by_start_desc west (status_log (db old_table))
          = [running] ++ first_hour :: []) as Hrows
    by (vm_compute; reflexivity).
  assert (Forall (row_in_range (local_utcoffset west)) [running]) as Hgood
    by (repeat constructor).
  assert (~ row_in_range (local_utcoffset west) first_hour) as Hbad
    by (intros [Hstart _]; vm_compute in Hstart; discriminate).
  destruct (history_stops_at_overflow west old_table _ _ _ _ Hdb
              ltac:(intros n _; reflexivity) Hrows Hgood Hbad)
    as (Hok & Hout & Hlog & _).
  split_and!; [exact Hok | exact Hout | exact Hlog].
Defined.

(** Intervals that start at the same instant are listed in the order of
    their rowids when the surroundings rank all rowids alike. *)
Example ties_in_rowid_order :
  order_by_start_desc calm_env same_second = same_second.
Proof. vm_compute. reflexivity. Qed.

(** 652 / 1000 is the double 0.652, which is not 652/1000; and the quotient
    of an int too large for a float raises. *)
Example truediv_rounds :
  Py.truediv (Py.VInt 652) 1000
  = Ok (5872693914091127 # 9007199254740992)%Q.
Proof. vm_compute. reflexivity. Qed.

Example truediv_overflows :
  Py.truediv (Py.VInt (10 ^ 400)) 10 = Raise OverflowError.
Proof. vm_compute. reflexivity. Qed.

Example from_raw_overflows :
  from_raw (payload true (10 ^ 400)) = Raise OverflowError.
Proof. vm_compute. reflexivity. Qed.
